(** * create_package.py: a shallow embedding and its properties

    The script builds a dummy package: it creates the scratch directory
    [temp_nginx] with a [README.txt], archives it with [tarfile], compresses
    the archive with Zstandard, hashes the result with SHA-256 and prints
    the checksum; a [finally] clause removes the scratch directory and the
    intermediate tar file.

    The embedding has three layers.
    - A small POSIX-like file system: a tree of files and directories, each
      directory with a write-permission bit, and the calls the script makes
      ([os.makedirs], [open], [os.path.exists], [os.remove], [rm -rf],
      [tarfile.add]).
    - The external libraries ([hashlib.sha256], the Zstandard codec, the tar
      wire format) are an interface with their contracts (class
      [Libraries]): the script only calls them.
    - The script itself, statement by statement, in a state-and-exception
      monad whose state holds the working directory, standard output, the
      module variables read by the [finally] clause, and the list of steps
      that started.

    Exceptions raised by the environment for reasons outside the file-system
    model (disk full, I/O error, a codec error) are injected through a fault
    plan.  All of them are instances of Python's [Exception].

    Outside the model: an asynchronous [KeyboardInterrupt], a failing
    [print], symbolic links, permission bits of regular files (a file can
    always be read and rewritten by the user who runs the script, who is
    not root), and the tar header fields other than name, type and the
    directory's write permission. *)

From Stdlib Require Import String Ascii List Bool Arith Lia.
From Stdlib Require Import Strings.Byte.
Import ListNotations.
Open Scope string_scope.
Open Scope list_scope.

Set Warnings "-register-all,-abstract-large-number".

(** ** Text helpers *)

Definition nl : string := String "010"%char EmptyString.

Definition squote (s : string) : string := "'" ++ s ++ "'".

(** [str.split("/")], restricted to what path resolution needs: the list of
    components of a relative path. *)
Fixpoint split_slash (s : string) : list string :=
  match s with
  | EmptyString => [EmptyString]
  | String c r =>
      if Ascii.eqb c "/"%char then EmptyString :: split_slash r
      else match split_slash r with
           | h :: t => String c h :: t
           | [] => [String c EmptyString]
           end
  end.

Fixpoint no_slash (s : string) : bool :=
  match s with
  | EmptyString => true
  | String c r => negb (Ascii.eqb c "/"%char) && no_slash r
  end.

(** [os.path.join] and [os.path.basename] on relative POSIX paths. *)
Definition os_path_join (a b : string) : string := a ++ "/" ++ b.

Definition os_path_basename (p : string) : string :=
  last (split_slash p) EmptyString.

(** ** Exceptions *)

Record exn := Exn { exn_type : string; exn_str : string }.

Definition PermissionError (path : string) : exn :=
  Exn "PermissionError" ("[Errno 13] Permission denied: " ++ squote path).
Definition FileExistsError (path : string) : exn :=
  Exn "FileExistsError" ("[Errno 17] File exists: " ++ squote path).
Definition FileNotFoundError (path : string) : exn :=
  Exn "FileNotFoundError" ("[Errno 2] No such file or directory: " ++ squote path).
Definition IsADirectoryError (path : string) : exn :=
  Exn "IsADirectoryError" ("[Errno 21] Is a directory: " ++ squote path).
Definition NotADirectoryError (path : string) : exn :=
  Exn "NotADirectoryError" ("[Errno 20] Not a directory: " ++ squote path).
Definition NameError (var : string) : exn :=
  Exn "NameError" ("name " ++ squote var ++ " is not defined").

(** ** The file system *)

Inductive node : Type :=
| File (data : list byte)
| Dir (writable : bool) (entries : list (string * node)).

Definition entries_t := list (string * node).

Fixpoint lookup (name : string) (es : entries_t) : option node :=
  match es with
  | [] => None
  | (k, n) :: r => if String.eqb name k then Some n else lookup name r
  end.

(** Replace the first entry called [name]; add one at the end if none. *)
Fixpoint replace (name : string) (n : node) (es : entries_t) : entries_t :=
  match es with
  | [] => [(name, n)]
  | (k, m) :: r =>
      if String.eqb name k then (k, n) :: r else (k, m) :: replace name n r
  end.

Fixpoint delete (name : string) (es : entries_t) : entries_t :=
  match es with
  | [] => []
  | (k, m) :: r =>
      if String.eqb name k then delete name r else (k, m) :: delete name r
  end.

Definition child (name : string) (n : node) : option node :=
  match n with
  | File _ => None
  | Dir _ es => lookup name es
  end.

Fixpoint resolve (n : node) (p : list string) : option node :=
  match p with
  | [] => Some n
  | c :: rest =>
      match child c n with
      | Some m => resolve m rest
      | None => None
      end
  end.

(** [os.path.exists] *)
Definition exists_at (n : node) (p : list string) : bool :=
  match resolve n p with Some _ => true | None => false end.

(** [os.makedirs(path, exist_ok=True)]: an existing directory is accepted,
    an existing file is not; a missing component is created when its parent
    is writable. *)
Fixpoint makedirs (shown : string) (n : node) (p : list string) : exn + node :=
  match p with
  | [] => inr n
  | c :: rest =>
      match n with
      | File _ => inl (NotADirectoryError shown)
      | Dir w es =>
          match lookup c es with
          | Some (File _) => inl (FileExistsError shown)
          | Some (Dir w' es') =>
              match makedirs shown (Dir w' es') rest with
              | inl e => inl e
              | inr n' => inr (Dir w (replace c n' es))
              end
          | None =>
              if w then
                match makedirs shown (Dir true []) rest with
                | inl e => inl e
                | inr n' => inr (Dir w (es ++ [(c, n')]))
                end
              else inl (PermissionError shown)
          end
      end
  end.

(** [open(path, "w")] and [open(path, "wb")]: create the file, or truncate
    it when it exists. *)
Fixpoint open_w (shown : string) (n : node) (p : list string) : exn + node :=
  match p with
  | [] => inl (IsADirectoryError shown)
  | c :: rest =>
      match n with
      | File _ => inl (NotADirectoryError shown)
      | Dir w es =>
          match rest with
          | [] =>
              match lookup c es with
              | None =>
                  if w then inr (Dir w (es ++ [(c, File [])]))
                  else inl (PermissionError shown)
              | Some (File _) => inr (Dir w (replace c (File []) es))
              | Some (Dir _ _) => inl (IsADirectoryError shown)
              end
          | _ :: _ =>
              match lookup c es with
              | None => inl (FileNotFoundError shown)
              | Some m =>
                  match open_w shown m rest with
                  | inl e => inl e
                  | inr m' => inr (Dir w (replace c m' es))
                  end
              end
          end
      end
  end.

(** What a write through an open handle leaves in the file. *)
Fixpoint write_at (n : node) (p : list string) (data : list byte) : node :=
  match p, n with
  | [], File _ => File data
  | c :: rest, Dir w es =>
      match lookup c es with
      | Some m => Dir w (replace c (write_at m rest data) es)
      | None => n
      end
  | _, _ => n
  end.

(** [open(path, "rb").read()] *)
Definition open_r (shown : string) (n : node) (p : list string)
  : exn + list byte :=
  match resolve n p with
  | Some (File d) => inr d
  | Some (Dir _ _) => inl (IsADirectoryError shown)
  | None => inl (FileNotFoundError shown)
  end.

(** [os.remove]: the parent must be writable, and the victim must not be a
    directory (Linux reports the permission problem first). *)
Fixpoint unlink (shown : string) (n : node) (p : list string) : exn + node :=
  match p with
  | [] => inl (IsADirectoryError shown)
  | c :: rest =>
      match n with
      | File _ => inl (NotADirectoryError shown)
      | Dir w es =>
          match lookup c es with
          | None => inl (FileNotFoundError shown)
          | Some m =>
              match rest with
              | [] =>
                  if negb w then inl (PermissionError shown)
                  else match m with
                       | Dir _ _ => inl (IsADirectoryError shown)
                       | File _ => inr (Dir w (delete c es))
                       end
              | _ :: _ =>
                  match unlink shown m rest with
                  | inl e => inl e
                  | inr m' => inr (Dir w (replace c m' es))
                  end
              end
          end
      end
  end.

(** [rm -rf]: what is left of a node after [rm] walked it.  An entry can be
    unlinked only from a writable directory, a directory only once it is
    empty; with [-f] whatever cannot be removed is skipped.  [None] means the
    node is gone. *)
Fixpoint rm_node (parent_w : bool) (n : node) : option node :=
  match n with
  | File d => if parent_w then None else Some (File d)
  | Dir w es =>
      let left :=
        (fix go (l : entries_t) : entries_t :=
           match l with
           | [] => []
           | (k, m) :: r =>
               match rm_node w m with
               | None => go r
               | Some m' => (k, m') :: go r
               end
           end) es in
      match left with
      | [] => if parent_w then None else Some (Dir w [])
      | _ :: _ => Some (Dir w left)
      end
  end.

(** [rm -rf] on one entry of a directory. *)
Definition rm_named (w : bool) (name : string) (es : entries_t) : entries_t :=
  match lookup name es with
  | None => es
  | Some m =>
      match rm_node w m with
      | None => delete name es
      | Some m' => replace name m' es
      end
  end.

Fixpoint rm_rf (n : node) (p : list string) : node :=
  match p, n with
  | [c], Dir w es => Dir w (rm_named w c es)
  | c :: rest, Dir w es =>
      match lookup c es with
      | Some m => Dir w (replace c (rm_rf m rest) es)
      | None => n
      end
  | _, _ => n
  end.

(** Every directory of the tree is writable: [rm -rf] can remove it all. *)
Fixpoint removable (n : node) : bool :=
  match n with
  | File _ => true
  | Dir w es =>
      w && (fix all (l : entries_t) : bool :=
              match l with
              | [] => true
              | (_, m) :: r => removable m && all r
              end) es
  end.

(** ** Tar archives

    A member is a name with its type and, for a regular file, its bytes; of
    the header fields only the directory's write permission is kept. *)

Inductive member_kind : Type :=
| MDir (mode_w : bool)
| MFile (data : list byte).

Definition member : Type := string * member_kind.

Fixpoint insert_by_name {X : Type} (x : string * X) (l : list (string * X))
  : list (string * X) :=
  match l with
  | [] => [x]
  | y :: r =>
      if String.leb (fst x) (fst y) then x :: l else y :: insert_by_name x r
  end.

(** [sorted(os.listdir(name))] *)
Definition sorted_by_name {X : Type} (l : list (string * X))
  : list (string * X) :=
  fold_right insert_by_name [] l.

(** [TarFile.add(name, arcname)], recursive: the entry itself, then the
    children in sorted order, each under [arcname/child]. *)
Fixpoint tar_add (n : node) (arcname : string) : list member :=
  match n with
  | File d => [(arcname, MFile d)]
  | Dir w es =>
      (arcname, MDir w)
        :: flat_map (fun ka => snd ka (os_path_join arcname (fst ka)))
             (sorted_by_name (map (fun km => (fst km, tar_add (snd km))) es))
  end.

(** [TarFile.extractall] into an empty directory: members are placed in
    order, missing parents are created, directory modes are set last. *)
Fixpoint place (n : node) (p : list string) (leaf : node) : node :=
  match p with
  | [] =>
      match leaf, n with
      | Dir w _, Dir _ es => Dir w es
      | _, _ => leaf
      end
  | c :: rest =>
      match n with
      | File _ => n
      | Dir w es =>
          let sub := match lookup c es with
                     | Some m => m
                     | None => Dir true []
                     end in
          Dir w (replace c (place sub rest leaf) es)
      end
  end.

Definition extract_member (root : node) (m : member) : node :=
  match snd m with
  | MDir w => place root (split_slash (fst m)) (Dir w [])
  | MFile d => place root (split_slash (fst m)) (File d)
  end.

Definition extractall (ms : list member) : node :=
  fold_left extract_member ms (Dir true []).

Definition is_file_member (m : member) : bool :=
  match snd m with MFile _ => true | MDir _ => false end.

Definition file_members (ms : list member) : list member :=
  filter is_file_member ms.

(** ** The clock and [strftime] *)

Record datetime := DateTime
  { year : nat; month : nat; day : nat;
    hour : nat; minute : nat; second : nat }.

(** The invariant of Python's [datetime] objects, as far as the format
    needs it. *)
Definition valid_datetime (t : datetime) : bool :=
  ((1 <=? year t) && (year t <=? 9999)
   && (1 <=? month t) && (month t <=? 12)
   && (1 <=? day t) && (day t <=? 31)
   && (hour t <=? 23) && (minute t <=? 59) && (second t <=? 59))%nat.

Definition digit (d : nat) : ascii := ascii_of_nat (48 + d).

Fixpoint decimal_fuel (fuel n : nat) (acc : string) : string :=
  match fuel with
  | 0 => acc
  | S f =>
      let acc' := String (digit (n mod 10)) acc in
      if (n / 10 =? 0)%nat then acc' else decimal_fuel f (n / 10) acc'
  end.

Definition decimal (n : nat) : string := decimal_fuel (S n) n EmptyString.

Fixpoint zeros (k : nat) : string :=
  match k with
  | 0 => EmptyString
  | S k' => String "0"%char (zeros k')
  end.

Definition zfill (width : nat) (s : string) : string :=
  zeros (width - String.length s) ++ s.

(** [t.strftime("%Y%m%d%H%M%S")] as CPython renders it through the C
    library on Linux: [%Y] is the year in decimal without padding (a year
    below 1000 gives fewer than four digits), the other fields are
    zero-padded to two digits. *)
Definition strftime_YmdHMS (t : datetime) : string :=
  decimal (year t) ++ zfill 2 (decimal (month t))
  ++ zfill 2 (decimal (day t)) ++ zfill 2 (decimal (hour t))
  ++ zfill 2 (decimal (minute t)) ++ zfill 2 (decimal (second t)).

(** The clock readings a running system gives: the year has four digits. *)
Definition four_digit_year (t : datetime) : bool :=
  (1000 <=? year t)%nat.

Definition is_digit (c : ascii) : bool :=
  let n := nat_of_ascii c in ((48 <=? n) && (n <=? 57))%nat.

Fixpoint all_digits (s : string) : bool :=
  match s with
  | EmptyString => true
  | String c r => is_digit c && all_digits r
  end.

(** Full match of the regular expression [nginx-\d{14}\.tar\.zst]. *)
Fixpoint strip_prefix (p s : string) : option string :=
  match p with
  | EmptyString => Some s
  | String a p' =>
      match s with
      | EmptyString => None
      | String b s' => if Ascii.eqb a b then strip_prefix p' s' else None
      end
  end.

Fixpoint take_digits (k : nat) (s : string) : option string :=
  match k with
  | 0 => Some s
  | S k' =>
      match s with
      | EmptyString => None
      | String c r => if is_digit c then take_digits k' r else None
      end
  end.

Definition matches_output_pattern (s : string) : bool :=
  match strip_prefix "nginx-" s with
  | None => false
  | Some r =>
      match take_digits 14 r with
      | None => false
      | Some t => String.eqb t ".tar.zst"
      end
  end.

(** ** [hexdigest] *)

Definition hex_digit (n : nat) : ascii :=
  if (n <? 10)%nat then ascii_of_nat (48 + n) else ascii_of_nat (87 + n).

Definition hex_of_byte (b : byte) : string :=
  let n := Byte.to_nat b in
  String (hex_digit (n / 16)) (String (hex_digit (n mod 16)) EmptyString).

Fixpoint hexlify (bs : list byte) : string :=
  match bs with
  | [] => EmptyString
  | b :: r => hex_of_byte b ++ hexlify r
  end.

Definition is_lower_hex (c : ascii) : bool :=
  let n := nat_of_ascii c in
  (((48 <=? n) && (n <=? 57)) || ((97 <=? n) && (n <=? 102)))%nat.

Fixpoint all_lower_hex (s : string) : bool :=
  match s with
  | EmptyString => true
  | String c r => is_lower_hex c && all_lower_hex r
  end.

Fixpoint bytes_eqb (a b : list byte) : bool :=
  match a, b with
  | [], [] => true
  | x :: a', y :: b' => Byte.eqb x y && bytes_eqb a' b'
  | _, _ => false
  end.

(** ** Configuration (module-level constants of the script) *)

Definition PACKAGE_NAME : string := "nginx".
Definition TEMP_DIR : string := "temp_" ++ PACKAGE_NAME.
Definition DUMMY_FILE_NAME : string := "README.txt".

Definition README_LINE_1 : string :=
  "This is a dummy file for the nginx package." ++ nl.
Definition README_LINE_2 : string :=
  "This content should be used to generate a consistent checksum." ++ nl.

(** Text written through a file opened with mode ["w"]: the encoding of the
    two lines (plain ASCII, so one byte per character). *)
Definition README_BYTES : list byte :=
  list_byte_of_string README_LINE_1 ++ list_byte_of_string README_LINE_2.

(** The member name of the entry at path [p] below an entry archived as
    [arcname]. *)
Fixpoint member_name (arcname : string) (p : list string) : string :=
  match p with
  | [] => arcname
  | c :: rest => member_name (os_path_join arcname c) rest
  end.

(** What the extracted archive should look like: one top-level directory
    [temp_nginx] holding one file [README.txt] with the two fixed lines. *)
Definition is_single_readme (n : node) : bool :=
  match n with
  | Dir _ [(top, Dir _ [(f, File d)])] =>
      String.eqb top (os_path_basename TEMP_DIR)
      && String.eqb f DUMMY_FILE_NAME
      && bytes_eqb d README_BYTES
  | _ => false
  end.

Fixpoint prefixes {A : Type} (l : list A) : list (list A) :=
  match l with
  | [] => [[]]
  | x :: r => [] :: map (cons x) (prefixes r)
  end.

Definition is_writable_dir (n : node) : bool :=
  match n with
  | Dir w _ => w
  | File _ => false
  end.

Definition is_dir (o : option node) : bool :=
  match o with
  | Some (Dir _ _) => true
  | _ => false
  end.

(** ** External libraries

    [hashlib], [zstandard] and the tar wire format are not part of the
    script; it relies on their contracts only: a frame decompresses to the
    bytes that were compressed, an archive parses to the members that were
    written. *)

Class Libraries : Type := {
  sha256 : list byte -> list byte;
  zstd_compress : list byte -> list byte;
  zstd_decompress : list byte -> option (list byte);
  tar_serialize : list member -> list byte;
  tar_parse : list byte -> option (list member);
  zstd_roundtrip : forall b, zstd_decompress (zstd_compress b) = Some b;
  tar_roundtrip : forall ms, tar_parse (tar_serialize ms) = Some ms
}.

(** ** Steps, faults and the environment of a run *)

Inductive step : Type :=
| Makedirs       (* os.makedirs(TEMP_DIR, exist_ok=True) *)
| OpenDummy      (* open(dummy_file_path, "w") *)
| WriteDummy     (* the two f.write calls and the close *)
| TarOpen        (* tarfile.open(tar_file_name, "w") *)
| TarAdd         (* tar.add(...) and the close *)
| OpenTarRead    (* open(tar_file_name, "rb") *)
| OpenZstWrite   (* open(zst_file_name, "wb") *)
| CopyStream     (* cctx.copy_stream(f_in, f_out) *)
| CloseZst       (* leaving the with block: flush and close f_out *)
| ReadZst        (* open(zst_file_name, "rb"); f.read() *)
| Hash           (* hasher.update(buf); hasher.hexdigest() *)
| PrintResults   (* the four result lines *)
| CleanupStart   (* entering the finally clause *)
| RmRf           (* os.system("rm -rf temp_nginx") *)
| RemoveTar.     (* os.remove(tar_file_name) *)

Definition step_eq_dec (a b : step) : {a = b} + {a <> b}.
Proof. decide equality. Defined.

Definition step_eqb (a b : step) : bool :=
  if step_eq_dec a b then true else false.

(** The statements of the [try] suite that touch the outside world, in
    program order. *)
Definition happy_path : list step :=
  [Makedirs; OpenDummy; WriteDummy; TarOpen; TarAdd; OpenTarRead;
   OpenZstWrite; CopyStream; CloseZst; ReadZst; Hash; PrintResults].

(** An exception the environment raises at a step, and for a step that
    writes, how many bytes reached the disk before it.  The plan is
    consulted by the steps that call into the operating system or a
    library, not by the printing steps and not by [rm], whose failures
    never reach the script. *)
Record fault := Fault { fault_exn : exn; fault_progress : nat }.

Record environment := Env {
  now : datetime;                    (* datetime.now() at start-up *)
  faults : step -> option fault
}.

Definition no_faults : step -> option fault := fun _ => None.

(** ** Program state and the state-and-exception monad *)

Record state := State {
  cwd : node;                        (* the working directory *)
  stdout : list string;              (* one element per print call *)
  trace : list step;                 (* steps started, oldest first *)
  var_tar_file_name : option string  (* module variable tar_file_name *)
}.

Definition M (A : Type) : Type := state -> (exn + A) * state.

Definition ret {A : Type} (a : A) : M A := fun st => (inr a, st).

Definition raise {A : Type} (e : exn) : M A := fun st => (inl e, st).

Definition bind {A B : Type} (m : M A) (k : A -> M B) : M B :=
  fun st =>
    match m st with
    | (inl e, st') => (inl e, st')
    | (inr a, st') => k a st'
    end.

Notation "x <- m ;; k" := (bind m (fun x => k))
  (at level 61, m at next level, right associativity).
Notation "m ;; k" := (bind m (fun _ => k))
  (at level 61, right associativity).

(** Python's [try: body / except Exception as e: handler / finally: final].
    The [finally] suite always runs; an exception it raises replaces any
    exception still pending. *)
Definition try_except_finally
  (body : M unit) (handler : exn -> M unit) (final : M unit) : M unit :=
  fun st =>
    match body st with
    | (inr _, st1) => final st1
    | (inl e, st1) =>
        match handler e st1 with
        | (inr _, st2) => final st2
        | (inl e', st2) =>
            match final st2 with
            | (inr _, st3) => (inl e', st3)
            | (inl e'', st3) => (inl e'', st3)
            end
        end
    end.

Definition set_cwd (n : node) (st : state) : state :=
  State n (stdout st) (trace st) (var_tar_file_name st).

Definition print (s : string) : M unit :=
  fun st =>
    (inr tt, State (cwd st) (stdout st ++ [s]) (trace st)
                   (var_tar_file_name st)).

Definition begin (k : step) : M unit :=
  fun st =>
    (inr tt, State (cwd st) (stdout st) (trace st ++ [k])
                   (var_tar_file_name st)).

Definition assign_tar_file_name (v : string) : M unit :=
  fun st => (inr tt, State (cwd st) (stdout st) (trace st) (Some v)).

(** Reading the variable raises [NameError] while it is unbound. *)
Definition load_tar_file_name : M string :=
  fun st =>
    match var_tar_file_name st with
    | Some v => (inr v, st)
    | None => (inl (NameError "tar_file_name"), st)
    end.

Section Script.

Context {L : Libraries}.
Variable env : environment.

(** A system call that changes the file system, or fails. *)
Definition fs_call (k : step) (f : node -> exn + node) : M unit :=
  begin k ;;
  fun st =>
    match faults env k with
    | Some ft => (inl (fault_exn ft), st)
    | None =>
        match f (cwd st) with
        | inl e => (inl e, st)
        | inr n => (inr tt, set_cwd n st)
        end
    end.

(** Writing [data] to the open file at [path]; a fault leaves a prefix. *)
Definition write_call (k : step) (path : string) (data : list byte)
  : M unit :=
  begin k ;;
  fun st =>
    let p := split_slash path in
    match faults env k with
    | Some ft =>
        (inl (fault_exn ft),
         set_cwd (write_at (cwd st) p (firstn (fault_progress ft) data)) st)
    | None => (inr tt, set_cwd (write_at (cwd st) p data) st)
    end.

Definition read_call (k : step) (path : string) : M (list byte) :=
  begin k ;;
  fun st =>
    match faults env k with
    | Some ft => (inl (fault_exn ft), st)
    | None =>
        match open_r path (cwd st) (split_slash path) with
        | inl e => (inl e, st)
        | inr d => (inr d, st)
        end
    end.

Definition os_makedirs (path : string) : M unit :=
  fs_call Makedirs (fun n => makedirs path n (split_slash path)).

Definition open_write (k : step) (path : string) : M unit :=
  fs_call k (fun n => open_w path n (split_slash path)).

(** [tar.add(name, arcname=arcname)] followed by closing the archive: the
    members are collected from the tree below [name] and the archive file
    receives their serialization. *)
Definition tar_add_and_close (tar_path name arcname : string) : M unit :=
  begin TarAdd ;;
  fun st =>
    match resolve (cwd st) (split_slash name) with
    | None =>
        match faults env TarAdd with
        | Some ft => (inl (fault_exn ft), st)
        | None => (inl (FileNotFoundError name), st)
        end
    | Some tree =>
        let image := tar_serialize (tar_add tree arcname) in
        let p := split_slash tar_path in
        match faults env TarAdd with
        | Some ft =>
            (inl (fault_exn ft),
             set_cwd (write_at (cwd st) p
                        (firstn (fault_progress ft) image)) st)
        | None => (inr tt, set_cwd (write_at (cwd st) p image) st)
        end
    end.

(** [hasher.update(buf); hasher.hexdigest()] *)
Definition hexdigest_of (buf : list byte) : M string :=
  begin Hash ;;
  fun st =>
    match faults env Hash with
    | Some ft => (inl (fault_exn ft), st)
    | None => (inr (hexlify (sha256 buf)), st)
    end.

Definition os_path_exists (path : string) : M bool :=
  fun st => (inr (exists_at (cwd st) (split_slash path)), st).

(** [os.system("rm -rf " + path)]: the exit status is discarded, so whatever
    [rm] could not remove is silently left behind. *)
Definition os_system_rm_rf (path : string) : M unit :=
  begin RmRf ;;
  fun st => (inr tt, set_cwd (rm_rf (cwd st) (split_slash path)) st).

Definition os_remove (path : string) : M unit :=
  fs_call RemoveTar (fun n => unlink path n (split_slash path)).

(** *** The script *)

Definition PACKAGE_VERSION : string := strftime_YmdHMS (now env).

Definition tar_name : string := PACKAGE_NAME ++ "-" ++ PACKAGE_VERSION ++ ".tar".
Definition zst_name : string := tar_name ++ ".zst".

(** The suite of the [try] statement (lines 18-58 of the script). *)
Definition try_suite : M unit :=
  (* line 20 *)
  print ("Creating temporary directory: " ++ TEMP_DIR) ;;
  (* line 21 *)
  os_makedirs TEMP_DIR ;;
  (* line 23 *)
  let dummy_file_path := os_path_join TEMP_DIR DUMMY_FILE_NAME in
  (* lines 24-26: with open(dummy_file_path, "w") as f *)
  open_write OpenDummy dummy_file_path ;;
  write_call WriteDummy dummy_file_path README_BYTES ;;
  (* line 28 *)
  print ("Created dummy file: " ++ dummy_file_path) ;;
  (* lines 31-32 *)
  let tar_file_name :=
    (PACKAGE_NAME ++ "-" ++ PACKAGE_VERSION ++ ".tar")%string in
  assign_tar_file_name tar_file_name ;;
  let zst_file_name := (tar_file_name ++ ".zst")%string in
  (* line 35 *)
  print ("Creating tar archive: " ++ tar_file_name) ;;
  (* lines 36-37: with tarfile.open(tar_file_name, "w") as tar *)
  open_write TarOpen tar_file_name ;;
  tar_add_and_close tar_file_name TEMP_DIR (os_path_basename TEMP_DIR) ;;
  (* line 40 *)
  print ("Compressing with Zstandard: " ++ zst_file_name) ;;
  (* lines 42-43: with open(.., "rb") as f_in, open(.., "wb") as f_out *)
  f_in <- read_call OpenTarRead tar_file_name ;;
  open_write OpenZstWrite zst_file_name ;;
  write_call CopyStream zst_file_name (zstd_compress f_in) ;;
  write_call CloseZst zst_file_name (zstd_compress f_in) ;;
  (* line 46 *)
  print ("Calculating SHA256 checksum of " ++ zst_file_name) ;;
  (* lines 47-52 *)
  buf <- read_call ReadZst zst_file_name ;;
  checksum <- hexdigest_of buf ;;
  (* lines 55-58 *)
  begin PrintResults ;;
  print (nl ++ "--- Results for your packages.json file ---") ;;
  print ("File created: " ++ zst_file_name) ;;
  print ("Checksum: " ++ checksum) ;;
  print (nl ++ "You can now use this checksum to update your packages.json file.").

(** The [except Exception as e] handler (lines 60-61). *)
Definition except_handler (e : exn) : M unit :=
  print ("An error occurred: " ++ exn_str e).

(** The [finally] suite (lines 63-69). *)
Definition finally_suite : M unit :=
  begin CleanupStart ;;
  (* line 65 *)
  print (nl ++ "Cleaning up temporary directory: " ++ TEMP_DIR) ;;
  (* lines 66-67 *)
  d <- os_path_exists TEMP_DIR ;;
  (if d then os_system_rm_rf TEMP_DIR else ret tt) ;;
  (* lines 68-69 *)
  tar_file_name <- load_tar_file_name ;;
  t <- os_path_exists tar_file_name ;;
  if t then os_remove tar_file_name else ret tt.

Definition main : M unit :=
  try_except_finally try_suite except_handler finally_suite.

Definition init (c : node) : state := State c [] [] None.

(** A run from working directory [c]: [inr tt] is normal termination,
    [inl e] an uncaught exception [e]. *)
Definition run (c : node) : (exn + unit) * state := main (init c).

(** The [try] suite alone, to tell where a run stood before clean-up. *)
Definition before_cleanup (c : node) : (exn + unit) * state :=
  try_suite (init c).

(** The state in which the [finally] suite starts: after the [try] suite
    and, when that raised, the handler. *)
Definition entering_finally (c : node) : state :=
  match before_cleanup c with
  | (inr _, st) => st
  | (inl e, st) => snd (except_handler e st)
  end.

(** The [try] suite ran to its end: the results block was printed. *)
Definition succeeded (c : node) : Prop :=
  fst (before_cleanup c) = inr tt.

(** The [try] suite raised [e]. *)
Definition raised (c : node) (e : exn) : Prop :=
  fst (before_cleanup c) = inl e.

(** The last step the [try] suite started: the one that raised, when one
    did. *)
Definition failing_step (c : node) : step :=
  last (trace (snd (before_cleanup c))) Makedirs.

Definition terminates_normally (c : node) : Prop :=
  fst (run c) = inr tt.

(** The scratch tree as the archiving step finds it: what was there before
    the run, with [README.txt] (re)written. *)
Definition scratch_tree (c : node) : node :=
  match child TEMP_DIR c with
  | Some (Dir w es) => Dir w (replace DUMMY_FILE_NAME (File README_BYTES) es)
  | _ => Dir true [(DUMMY_FILE_NAME, File README_BYTES)]
  end.

(** Standard output of a completed [try] suite, and the line the [finally]
    suite adds. *)
Definition results_stdout (checksum : string) : list string :=
  [ "Creating temporary directory: " ++ TEMP_DIR;
    "Created dummy file: " ++ os_path_join TEMP_DIR DUMMY_FILE_NAME;
    "Creating tar archive: " ++ tar_name;
    "Compressing with Zstandard: " ++ zst_name;
    "Calculating SHA256 checksum of " ++ zst_name;
    nl ++ "--- Results for your packages.json file ---";
    "File created: " ++ zst_name;
    "Checksum: " ++ checksum;
    nl ++ "You can now use this checksum to update your packages.json file."
  ]%string.

Definition cleanup_line : string :=
  nl ++ "Cleaning up temporary directory: " ++ TEMP_DIR.

(** Decompressing the file [name] of directory [c] and extracting the
    archive into an empty directory. *)
Definition unpack (c : node) (name : string) : option node :=
  match child name c with
  | Some (File z) =>
      match zstd_decompress z with
      | Some t =>
          match tar_parse t with
          | Some ms => Some (extractall ms)
          | None => None
          end
      | None => None
      end
  | _ => None
  end.

End Script.

(** ** A reference implementation of the library interface

    The interface is inhabited: a codec that stores its input unchanged (a
    Zstandard frame may hold raw blocks), a length-prefixed archive format,
    and a one-byte additive digest.  Concrete runs below are evaluated with
    it. *)

Fixpoint enc_nat (n : nat) : list byte :=
  match n with
  | 0 => [x00]
  | S k => x01 :: enc_nat k
  end.

Fixpoint dec_nat (l : list byte) : option (nat * list byte) :=
  match l with
  | x00 :: r => Some (0, r)
  | x01 :: r =>
      match dec_nat r with
      | Some (k, r') => Some (S k, r')
      | None => None
      end
  | _ => None
  end.

Definition enc_block (bs : list byte) : list byte :=
  enc_nat (List.length bs) ++ bs.

Definition dec_block (l : list byte) : option (list byte * list byte) :=
  match dec_nat l with
  | Some (k, r) =>
      if (List.length r <? k)%nat then None else Some (firstn k r, skipn k r)
  | None => None
  end.

Definition enc_member (m : member) : list byte :=
  match snd m with
  | MDir true => x02 :: enc_block (list_byte_of_string (fst m))
  | MDir false => x03 :: enc_block (list_byte_of_string (fst m))
  | MFile d => x04 :: enc_block (list_byte_of_string (fst m)) ++ enc_block d
  end.

Definition stored_tar_serialize (ms : list member) : list byte :=
  flat_map enc_member ms.

Fixpoint parse_members (fuel : nat) (l : list byte) : option (list member) :=
  match l with
  | [] => Some []
  | tag :: r =>
      match fuel with
      | 0 => None
      | S f =>
          match dec_block r with
          | None => None
          | Some (nm, r1) =>
              let name := string_of_list_byte nm in
              match tag with
              | x02 => option_map (cons (name, MDir true)) (parse_members f r1)
              | x03 => option_map (cons (name, MDir false)) (parse_members f r1)
              | x04 =>
                  match dec_block r1 with
                  | None => None
                  | Some (d, r2) =>
                      option_map (cons (name, MFile d)) (parse_members f r2)
                  end
              | _ => None
              end
          end
      end
  end.

Definition stored_tar_parse (l : list byte) : option (list member) :=
  parse_members (List.length l) l.

Definition additive_digest (bs : list byte) : list byte :=
  match Byte.of_nat (fold_right (fun b acc => (Byte.to_nat b + acc) mod 256) 0 bs) with
  | Some b => [b]
  | None => []
  end.


(** ** Concrete runs

    Inputs on which the script is evaluated below, with the reference
    libraries. *)

Definition clock0 : datetime := DateTime 2026 11 3 10 59 7.

Definition env0 : environment := Env clock0 no_faults.

(** The disk fills up after five bytes of compressed output. *)
Definition env_disk_full : environment :=
  Env clock0
      (fun k =>
         match k with
         | CopyStream =>
             Some (Fault (Exn "OSError" "[Errno 28] No space left on device") 5)
         | _ => None
         end).

Definition empty_cwd : node := Dir true [].

Definition read_only_cwd : node := Dir false [].

(** A scratch directory left over from earlier, with a file in it. *)
Definition cwd_with_old_file : node :=
  Dir true [(TEMP_DIR, Dir true [("old.txt", File [x41])])].

(** A left-over scratch directory holding a read-only subdirectory. *)
Definition cwd_with_locked_subdir : node :=
  Dir true [(TEMP_DIR, Dir true [("keep", Dir false [("x", File [])])])].

(** A directory sits where the intermediate tar file should go. *)
Definition cwd_with_dir_at_tar : node :=
  Dir true [("nginx-20261103105907.tar", Dir true [])].

(** A working directory holding an unrelated file. *)
Definition cwd_with_notes : node :=
  Dir true [("notes.txt", File [x68; x69])].

(** A regular file sits where the scratch directory should go. *)
Definition cwd_with_file_at_temp : node :=
  Dir true [(TEMP_DIR, File [x21])].

(** A read-only working directory holding an unrelated file. *)
Definition read_only_cwd_with_notes : node :=
  Dir false [("notes.txt", File [x68; x69])].

Definition clock1 : datetime := DateTime 2026 11 3 10 59 8.

Definition env1 : environment := Env clock1 no_faults.

(** A left-over scratch directory in which [README.txt] is a directory. *)
Definition cwd_with_dir_at_readme : node :=
  Dir true [(TEMP_DIR, Dir true [(DUMMY_FILE_NAME, Dir true [])])].

(** A left-over scratch directory that is empty and read-only. *)
Definition cwd_with_read_only_scratch : node :=
  Dir true [(TEMP_DIR, Dir false [])].

(** A clock reading with a three-digit year. *)
Definition clock_year_999 : datetime := DateTime 999 11 3 10 59 7.

(** ** Auxiliary notions for the further properties *)

(** Nothing there, or a tree [rm -rf] can delete. *)
Definition removable_opt (o : option node) : Prop :=
  match o with
  | Some n => removable n = true
  | None => True
  end.

(** The scratch directory can be set up: [temp_nginx] is absent, or is a
    directory in which [README.txt] can be created or rewritten. *)
Definition scratch_usable (c : node) : bool :=
  match child TEMP_DIR c with
  | None => true
  | Some (File _) => false
  | Some (Dir w es) =>
      match lookup DUMMY_FILE_NAME es with
      | None => w
      | Some (File _) => true
      | Some (Dir _ _) => false
      end
  end.

(** The progress lines of the [try] suite, before the results block. *)
Definition progress_lines (env : environment) : list string :=
  [ "Creating temporary directory: " ++ TEMP_DIR;
    "Created dummy file: " ++ os_path_join TEMP_DIR DUMMY_FILE_NAME;
    "Creating tar archive: " ++ tar_name env;
    "Compressing with Zstandard: " ++ zst_name env;
    "Calculating SHA256 checksum of " ++ zst_name env ]%string.

(** The members of the compressed archive stored as [name] in [c]. *)
Definition archive_members {L : Libraries} (c : node) (name : string)
  : option (list member) :=
  match child name c with
  | Some (File z) =>
      match zstd_decompress z with
      | Some t => tar_parse t
      | None => None
      end
  | _ => None
  end.

(** Reading a decimal numeral, and cutting a string at a position: used to
    read the fields back out of a version string.  The last ten characters
    are the five two-digit fields; what stands before them is the year. *)
Fixpoint value_from (a : nat) (s : string) : nat :=
  match s with
  | EmptyString => a
  | String c r => value_from (10 * a + (nat_of_ascii c - 48)) r
  end.

Fixpoint take (k : nat) (s : string) : string :=
  match k, s with
  | S k', String c r => String c (take k' r)
  | _, _ => EmptyString
  end.

Fixpoint drop (k : nat) (s : string) : string :=
  match k, s with
  | S k', String _ r => drop k' r
  | _, _ => s
  end.

Definition parse_YmdHMS (s : string) : datetime :=
  let k := String.length s - 10 in
  let r := drop k s in
  DateTime (value_from 0 (take k s))
           (value_from 0 (take 2 r))
           (value_from 0 (take 2 (drop 2 r)))
           (value_from 0 (take 2 (drop 4 r)))
           (value_from 0 (take 2 (drop 6 r)))
           (value_from 0 (take 2 (drop 8 r))).
(** * Properties *)

(** ** The reference archive format round-trips *)

Lemma dec_nat_enc_nat (n : nat) (rest : list byte) :
  dec_nat (enc_nat n ++ rest) = Some (n, rest).
Proof.
  induction n as [|n IH]; simpl.
  - reflexivity.
  - rewrite IH. reflexivity.
Qed.

Lemma dec_block_enc_block (bs rest : list byte) :
  dec_block (enc_block bs ++ rest) = Some (bs, rest).
Proof.
  unfold dec_block, enc_block.
  rewrite <- app_assoc, dec_nat_enc_nat.
  assert (H : (List.length (bs ++ rest) <? List.length bs)%nat = false).
  { apply Nat.ltb_ge. rewrite length_app. lia. }
  rewrite H.
  rewrite firstn_app, Nat.sub_diag, firstn_all, firstn_O, app_nil_r.
  rewrite skipn_app, Nat.sub_diag, skipn_all.
  reflexivity.
Qed.

Lemma parse_members_serialize (ms : list member) :
  forall fuel, List.length ms <= fuel ->
  parse_members fuel (stored_tar_serialize ms) = Some ms.
Proof.
  induction ms as [|[name kind] ms IH]; intros fuel Hf.
  - destruct fuel; reflexivity.
  - destruct fuel as [|fuel]; [simpl in Hf; lia|].
    assert (Hf' : List.length ms <= fuel) by (simpl in Hf; lia).
    specialize (IH fuel Hf').
    unfold stored_tar_serialize in *. simpl flat_map.
    destruct kind as [[|]|d].
    + simpl. rewrite dec_block_enc_block, string_of_list_byte_of_string, IH.
      reflexivity.
    + simpl. rewrite dec_block_enc_block, string_of_list_byte_of_string, IH.
      reflexivity.
    + simpl. rewrite <- app_assoc, dec_block_enc_block.
      rewrite dec_block_enc_block, string_of_list_byte_of_string, IH.
      reflexivity.
Qed.

Lemma serialize_length (ms : list member) :
  List.length ms <= List.length (stored_tar_serialize ms).
Proof.
  induction ms as [|[name kind] ms IH]; simpl; [lia|].
  unfold stored_tar_serialize in *. rewrite length_app.
  destruct kind as [[|]|d]; simpl in *; lia.
Qed.

Lemma stored_tar_roundtrip (ms : list member) :
  stored_tar_parse (stored_tar_serialize ms) = Some ms.
Proof.
  unfold stored_tar_parse. apply parse_members_serialize, serialize_length.
Qed.

#[export] Instance stored_libs : Libraries := {|
  sha256 := additive_digest;
  zstd_compress := fun b => b;
  zstd_decompress := fun b => Some b;
  tar_serialize := stored_tar_serialize;
  tar_parse := stored_tar_parse;
  zstd_roundtrip := fun b => eq_refl;
  tar_roundtrip := stored_tar_roundtrip
|}.


(** ** Directory entries *)

Lemma lookup_replace_same (k : string) (n : node) (es : entries_t) :
  lookup k (replace k n es) = Some n.
Proof.
  induction es as [|[k' m] r IH]; simpl.
  - rewrite String.eqb_refl. reflexivity.
  - destruct (String.eqb k k') eqn:E; simpl; rewrite E; auto.
Qed.

Lemma lookup_replace_other (k k' : string) (n : node) (es : entries_t) :
  k <> k' -> lookup k (replace k' n es) = lookup k es.
Proof.
  intros Hne. induction es as [|[k2 m] r IH]; simpl.
  - apply String.eqb_neq in Hne. rewrite Hne. reflexivity.
  - destruct (String.eqb k' k2) eqn:E; simpl.
    + apply String.eqb_eq in E. subst k2.
      apply String.eqb_neq in Hne. rewrite Hne. reflexivity.
    + rewrite IH. reflexivity.
Qed.

Lemma lookup_snoc (k k' : string) (n : node) (es : entries_t) :
  lookup k (es ++ [(k', n)]) =
  match lookup k es with
  | Some m => Some m
  | None => if String.eqb k k' then Some n else None
  end.
Proof.
  induction es as [|[k2 m] r IH]; simpl.
  - reflexivity.
  - destruct (String.eqb k k2); auto.
Qed.

Lemma lookup_snoc_other (k k' : string) (n : node) (es : entries_t) :
  k <> k' -> lookup k (es ++ [(k', n)]) = lookup k es.
Proof.
  intros Hne. rewrite lookup_snoc. apply String.eqb_neq in Hne. rewrite Hne.
  destruct (lookup k es); reflexivity.
Qed.

Lemma lookup_delete_same (k : string) (es : entries_t) :
  lookup k (delete k es) = None.
Proof.
  induction es as [|[k' m] r IH]; simpl; auto.
  destruct (String.eqb k k') eqn:E; simpl; try rewrite E; auto.
Qed.

Lemma lookup_delete_other (k k' : string) (es : entries_t) :
  k <> k' -> lookup k (delete k' es) = lookup k es.
Proof.
  intros Hne. induction es as [|[k2 m] r IH]; simpl; auto.
  destruct (String.eqb k' k2) eqn:E; simpl.
  - apply String.eqb_eq in E. subst k2.
    apply String.eqb_neq in Hne. rewrite Hne. exact IH.
  - rewrite IH. reflexivity.
Qed.

Lemma lookup_rm_named_other (w : bool) (k k' : string) (es : entries_t) :
  k <> k' -> lookup k (rm_named w k' es) = lookup k es.
Proof.
  intros Hne. unfold rm_named.
  destruct (lookup k' es) as [m|]; [|reflexivity].
  destruct (rm_node w m).
  - apply lookup_replace_other; assumption.
  - apply lookup_delete_other; assumption.
Qed.

Lemma replace_absent (k : string) (n : node) (es : entries_t) :
  lookup k es = None -> replace k n es = es ++ [(k, n)].
Proof.
  induction es as [|[k' m] r IH]; simpl; intros H.
  - reflexivity.
  - destruct (String.eqb k k'); [discriminate|]. rewrite IH; auto.
Qed.

Lemma replace_replace (k : string) (a b : node) (es : entries_t) :
  replace k b (replace k a es) = replace k b es.
Proof.
  induction es as [|[k' m] r IH]; simpl.
  - rewrite String.eqb_refl. reflexivity.
  - destruct (String.eqb k k') eqn:E; simpl; rewrite E.
    + reflexivity.
    + rewrite IH. reflexivity.
Qed.

Lemma lookup_In (k : string) (n : node) (es : entries_t) :
  lookup k es = Some n -> In (k, n) es.
Proof.
  induction es as [|[k' m] r IH]; simpl; intros H.
  - discriminate.
  - destruct (String.eqb k k') eqn:E.
    + apply String.eqb_eq in E. inversion H. subst. left. reflexivity.
    + right. auto.
Qed.

Lemma In_replace_other (k k' : string) (n m : node) (es : entries_t) :
  k <> k' -> In (k, n) es -> In (k, n) (replace k' m es).
Proof.
  intros Hne. induction es as [|[k2 m2] r IH]; simpl; intros H.
  - contradiction.
  - destruct (String.eqb k' k2) eqn:E.
    + apply String.eqb_eq in E. subst k2.
      destruct H as [H|H]; [inversion H; congruence | right; exact H].
    + destruct H as [H|H]; [left; exact H | right; auto].
Qed.

(** ** Paths *)

Lemma split_slash_no_slash (s : string) :
  no_slash s = true -> split_slash s = [s].
Proof.
  induction s as [|c r IH]; simpl; intros H.
  - reflexivity.
  - apply andb_true_iff in H. destruct H as [Hc Hr].
    apply negb_true_iff in Hc. rewrite Hc, (IH Hr). reflexivity.
Qed.

Lemma no_slash_app (a b : string) :
  no_slash (a ++ b) = no_slash a && no_slash b.
Proof.
  induction a as [|c r IH]; simpl.
  - reflexivity.
  - rewrite IH, andb_assoc. reflexivity.
Qed.

(** ** The system calls leave the other entries of the directory alone *)

Lemma makedirs_frame (s k c : string) (rest : list string) (n n' : node) :
  makedirs s n (c :: rest) = inr n' -> k <> c -> child k n' = child k n.
Proof.
  intros H Hne. destruct n as [d|w es]; simpl in H; [discriminate|].
  destruct (lookup c es) as [[d|w' es']|] eqn:E.
  - discriminate.
  - destruct (makedirs s (Dir w' es') rest); inversion H; subst; simpl.
    apply lookup_replace_other; assumption.
  - destruct w; [|discriminate].
    destruct (makedirs s (Dir true []) rest); inversion H; subst; simpl.
    apply lookup_snoc_other; assumption.
Qed.

Lemma open_w_frame (s k c : string) (rest : list string) (n n' : node) :
  open_w s n (c :: rest) = inr n' -> k <> c -> child k n' = child k n.
Proof.
  intros H Hne. destruct n as [d|w es]; simpl in H; [discriminate|].
  destruct rest as [|c2 rest].
  - destruct (lookup c es) as [[d|w' es']|] eqn:E.
    + inversion H; subst; simpl. apply lookup_replace_other; assumption.
    + discriminate.
    + destruct w; inversion H; subst; simpl.
      apply lookup_snoc_other; assumption.
  - destruct (lookup c es) as [m|] eqn:E; [|discriminate].
    destruct (open_w s m (c2 :: rest)); inversion H; subst; simpl.
    apply lookup_replace_other; assumption.
Qed.

Lemma write_at_frame (k c : string) (rest : list string) (n : node)
  (data : list byte) :
  k <> c -> child k (write_at n (c :: rest) data) = child k n.
Proof.
  intros Hne. destruct n as [d|w es]; simpl; [reflexivity|].
  destruct (lookup c es) as [m|] eqn:E; simpl; [|reflexivity].
  apply lookup_replace_other; assumption.
Qed.

Lemma unlink_frame (s k c : string) (rest : list string) (n n' : node) :
  unlink s n (c :: rest) = inr n' -> k <> c -> child k n' = child k n.
Proof.
  intros H Hne. destruct n as [d|w es]; simpl in H; [discriminate|].
  destruct (lookup c es) as [m|] eqn:E; [|discriminate].
  destruct rest as [|c2 rest].
  - destruct w; simpl in H; [|discriminate].
    destruct m; inversion H; subst; simpl.
    apply lookup_delete_other; assumption.
  - destruct (unlink s m (c2 :: rest)); inversion H; subst; simpl.
    apply lookup_replace_other; assumption.
Qed.

Lemma rm_rf_frame (k c : string) (rest : list string) (n : node) :
  k <> c -> child k (rm_rf n (c :: rest)) = child k n.
Proof.
  intros Hne. destruct n as [d|w es]; destruct rest as [|c2 rest]; simpl;
    try reflexivity.
  - apply lookup_rm_named_other; assumption.
  - destruct (lookup c es) as [m|] eqn:E; simpl; [|reflexivity].
    apply lookup_replace_other; assumption.
Qed.

(** ** What the calls do to their own entry *)

Lemma open_w_creates (s c : string) (n n' : node) :
  open_w s n [c] = inr n' -> child c n' = Some (File []).
Proof.
  intros H. destruct n as [d|w es]; simpl in H; [discriminate|].
  destruct (lookup c es) as [[d|w' es']|] eqn:E.
  - inversion H; subst; simpl. apply lookup_replace_same.
  - discriminate.
  - destruct w; inversion H; subst; simpl.
    rewrite lookup_snoc, E, String.eqb_refl. reflexivity.
Qed.

Lemma write_at_file (c : string) (n : node) (old data : list byte) :
  child c n = Some (File old) ->
  child c (write_at n [c] data) = Some (File data).
Proof.
  intros H. destruct n as [d|w es]; simpl in *; [discriminate|].
  rewrite H. simpl. apply lookup_replace_same.
Qed.

Lemma unlink_removes (s c : string) (n n' : node) :
  unlink s n [c] = inr n' -> child c n' = None.
Proof.
  intros H. destruct n as [d|w es]; simpl in H; [discriminate|].
  destruct (lookup c es) as [m|] eqn:E; [|discriminate].
  destruct w; simpl in H; [|discriminate].
  destruct m; inversion H; subst; simpl. apply lookup_delete_same.
Qed.

Lemma open_r_content (s c : string) (n : node) (d : list byte) :
  open_r s n [c] = inr d -> child c n = Some (File d).
Proof.
  unfold open_r. simpl. destruct (child c n) as [[d'|w es]|]; intros H;
    inversion H; reflexivity.
Qed.

Lemma open_r_file (s c : string) (n : node) (d : list byte) :
  child c n = Some (File d) -> open_r s n [c] = inr d.
Proof. unfold open_r. simpl. intros ->. reflexivity. Qed.

Lemma exists_at_child (c : string) (n : node) :
  exists_at n [c] = match child c n with Some _ => true | None => false end.
Proof. unfold exists_at. simpl. destruct (child c n); reflexivity. Qed.

(** ** [rm -rf] removes a tree whose directories are all writable *)

Lemma node_rect_nested (P : node -> Prop)
  (HF : forall d, P (File d))
  (HD : forall w es, Forall (fun km => P (snd km)) es -> P (Dir w es)) :
  forall n, P n.
Proof.
  refine (fix IH (n : node) : P n :=
            match n with
            | File d => HF d
            | Dir w es =>
                HD w es
                  ((fix go (l : entries_t) : Forall (fun km => P (snd km)) l :=
                      match l with
                      | [] => Forall_nil _
                      | km :: r => Forall_cons km (IH (snd km)) (go r)
                      end) es)
            end).
Qed.

Lemma rm_node_removable (n : node) :
  removable n = true -> rm_node true n = None.
Proof.
  induction n as [d|w es IH] using node_rect_nested; intros H.
  - reflexivity.
  - simpl in H. apply andb_true_iff in H. destruct H as [Hw Hall]. subst w.
    simpl.
    assert (Hleft :
      (fix go (l : entries_t) : entries_t :=
         match l with
         | [] => []
         | (k, m) :: r =>
             match rm_node true m with
             | None => go r
             | Some m' => (k, m') :: go r
             end
         end) es = []).
    { induction es as [|[k m] r IHr].
      - reflexivity.
      - apply andb_true_iff in Hall. destruct Hall as [Hm Hr].
        inversion IH as [|? ? Pm Pr]; subst.
        simpl in Pm. rewrite (Pm Hm). apply IHr; assumption. }
    rewrite Hleft. reflexivity.
Qed.

Lemma lookup_rm_named_removable (k : string) (m : node) (es : entries_t) :
  lookup k es = Some m -> removable m = true ->
  lookup k (rm_named true k es) = None.
Proof.
  intros Hl Hr. unfold rm_named. rewrite Hl, (rm_node_removable m Hr).
  apply lookup_delete_same.
Qed.

Lemma replace_same (k : string) (n : node) (es : entries_t) :
  lookup k es = Some n -> replace k n es = es.
Proof.
  induction es as [|[k' m] r IH]; simpl; intros H.
  - discriminate.
  - destruct (String.eqb k k') eqn:E.
    + inversion H. reflexivity.
    + rewrite IH; auto.
Qed.

Lemma removable_entries_replace (k : string) (d : list byte) (es : entries_t) :
  removable (Dir true es) = true ->
  removable (Dir true (replace k (File d) es)) = true.
Proof.
  simpl. induction es as [|[k' m] r IH]; simpl; intros H.
  - reflexivity.
  - apply andb_true_iff in H. destruct H as [Hm Hr].
    destruct (String.eqb k k'); simpl.
    + exact Hr.
    + rewrite Hm. apply IH. exact Hr.
Qed.

(** ** Archiving a tree *)

Lemma In_insert_by_name {X : Type} (x y : string * X) (l : list (string * X)) :
  In y (insert_by_name x l) <-> y = x \/ In y l.
Proof.
  induction l as [|z r IH]; simpl.
  - intuition congruence.
  - destruct (String.leb (fst x) (fst z)); simpl.
    + intuition congruence.
    + rewrite IH. intuition congruence.
Qed.

Lemma In_sorted_by_name {X : Type} (y : string * X) (l : list (string * X)) :
  In y (sorted_by_name l) <-> In y l.
Proof.
  induction l as [|x r IH]; simpl.
  - reflexivity.
  - rewrite In_insert_by_name, IH. intuition congruence.
Qed.

(** Every regular file below the archived tree is a member of the archive,
    under its path and with its content. *)
Lemma tar_add_resolve (p : list string) :
  forall (n : node) (arcname : string) (d : list byte),
  resolve n p = Some (File d) ->
  In (member_name arcname p, MFile d) (tar_add n arcname).
Proof.
  induction p as [|c rest IH]; intros n arcname d H.
  - simpl in H. inversion H. subst n. simpl. left. reflexivity.
  - simpl in H. destruct n as [d0|w es]; simpl in H; [discriminate|].
    destruct (lookup c es) as [m|] eqn:E; [|discriminate].
    simpl. right. apply in_flat_map.
    exists (c, tar_add m). split.
    + apply In_sorted_by_name.
      apply (in_map (fun km => (fst km, tar_add (snd km))) es (c, m)).
      apply lookup_In. exact E.
    + simpl. apply IH. exact H.
Qed.

(** ** The scratch directory after [os.makedirs], [open] and the writes *)

Lemma replace_snoc_absent (k : string) (a b : node) (es : entries_t) :
  lookup k es = None -> replace k b (es ++ [(k, a)]) = replace k b es.
Proof.
  intros H. rewrite <- (replace_absent k a es H). apply replace_replace.
Qed.

Lemma open_w_leaf (s r : string) (w : bool) (es : entries_t) (m : node) :
  open_w s (Dir w es) [r] = inr m ->
  exists es', m = Dir w es' /\ lookup r es' = Some (File []) /\
              forall d, replace r (File d) es' = replace r (File d) es.
Proof.
  simpl. destruct (lookup r es) as [[d0|w0 es0]|] eqn:E; intros H.
  - inversion H. eexists. split; [reflexivity|]. split.
    + apply lookup_replace_same.
    + intros d. apply replace_replace.
  - discriminate.
  - destruct w; inversion H. eexists. split; [reflexivity|]. split.
    + rewrite lookup_snoc, E, String.eqb_refl. reflexivity.
    + intros d. apply replace_snoc_absent. exact E.
Qed.

Lemma open_w_below (s c c2 : string) (rest : list string) (w : bool)
  (es : entries_t) :
  open_w s (Dir w es) (c :: c2 :: rest) =
  match lookup c es with
  | None => inl (FileNotFoundError s)
  | Some m =>
      match open_w s m (c2 :: rest) with
      | inl e => inl e
      | inr m' => inr (Dir w (replace c m' es))
      end
  end.
Proof. reflexivity. Qed.

Lemma scratch_after_write (s1 s2 t r : string) (c n n0 : node)
  (d : list byte) :
  makedirs s1 c [t] = inr n ->
  open_w s2 n [t; r] = inr n0 ->
  child t (write_at n0 [t; r] d) =
  Some match child t c with
       | Some (Dir w es) => Dir w (replace r (File d) es)
       | _ => Dir true [(r, File d)]
       end.
Proof.
  intros Hmk Hop. destruct c as [d0|w es]; [discriminate Hmk|].
  simpl in Hmk. cbn [child].
  destruct (lookup t es) as [[d1|w1 es1]|] eqn:E.
  - discriminate Hmk.
  - inversion Hmk. subst n. clear Hmk.
    rewrite open_w_below, lookup_replace_same in Hop.
    destruct (open_w s2 (Dir w1 es1) [r]) as [e|m] eqn:Hleaf;
      [discriminate Hop|].
    inversion Hop. subst n0. clear Hop.
    destruct (open_w_leaf _ _ _ _ _ Hleaf) as (es' & -> & Hl & Hrep).
    cbn [write_at]. rewrite lookup_replace_same, Hl.
    cbn [child]. rewrite lookup_replace_same, Hrep. reflexivity.
  - destruct w; [|discriminate Hmk]. inversion Hmk. subst n. clear Hmk.
    rewrite open_w_below, lookup_snoc, E, String.eqb_refl in Hop.
    destruct (open_w s2 (Dir true []) [r]) as [e|m] eqn:Hleaf;
      [discriminate Hop|].
    inversion Hop. subst n0. clear Hop.
    destruct (open_w_leaf _ _ _ _ _ Hleaf) as (es' & -> & Hl & Hrep).
    cbn [write_at]. rewrite lookup_replace_same, Hl.
    cbn [child]. rewrite lookup_replace_same, Hrep. reflexivity.
Qed.

Lemma makedirs_existing (s t : string) (c : node) (w : bool) (es : entries_t) :
  child t c = Some (Dir w es) -> makedirs s c [t] = inr c.
Proof.
  intros H. destruct c as [d|w0 es0]; [discriminate H|].
  cbn [child] in H. cbn [makedirs]. rewrite H.
  rewrite (replace_same t _ es0 H). reflexivity.
Qed.

(** ** The write permission of the working directory itself *)

Lemma makedirs_writable (s : string) (p : list string) (n n' : node) :
  makedirs s n p = inr n' -> is_writable_dir n' = is_writable_dir n.
Proof.
  destruct p as [|c rest]; simpl; intros H.
  - inversion H. reflexivity.
  - destruct n as [d|w es]; [discriminate H|].
    destruct (lookup c es) as [[d|w' es']|].
    + discriminate H.
    + destruct (makedirs s (Dir w' es') rest); inversion H. reflexivity.
    + destruct w; [|discriminate H].
      destruct (makedirs s (Dir true []) rest); inversion H. reflexivity.
Qed.

Lemma open_w_writable (s : string) (p : list string) (n n' : node) :
  open_w s n p = inr n' -> is_writable_dir n' = is_writable_dir n.
Proof.
  destruct p as [|c rest]; simpl; intros H; [discriminate H|].
  destruct n as [d|w es]; [discriminate H|].
  destruct rest as [|c2 rest].
  - destruct (lookup c es) as [[d|w' es']|].
    + inversion H. reflexivity.
    + discriminate H.
    + destruct w; inversion H. reflexivity.
  - destruct (lookup c es) as [m|]; [|discriminate H].
    destruct (open_w s m (c2 :: rest)); inversion H. reflexivity.
Qed.

Lemma write_at_writable (p : list string) (n : node) (d : list byte) :
  p <> [] -> is_writable_dir (write_at n p d) = is_writable_dir n.
Proof.
  destruct p as [|c rest]; intros Hp; [congruence|].
  destruct n as [d0|w es]; simpl; [reflexivity|].
  destruct (lookup c es); reflexivity.
Qed.

Lemma rm_rf_writable (p : list string) (n : node) :
  is_writable_dir (rm_rf n p) = is_writable_dir n.
Proof.
  destruct p as [|c rest]; [reflexivity|].
  destruct n as [d0|w es]; [destruct rest; reflexivity|].
  destruct rest as [|c2 rest]; simpl; [reflexivity|].
  destruct (lookup c es); reflexivity.
Qed.

Lemma unlink_file_ok (s k : string) (n : node) (d : list byte) :
  is_writable_dir n = true -> child k n = Some (File d) ->
  exists n', unlink s n [k] = inr n'.
Proof.
  intros Hw Hc. destruct n as [d0|w es]; [discriminate Hw|].
  simpl in *. subst w. rewrite Hc. simpl. eexists. reflexivity.
Qed.

(** ** Further facts about the system calls *)

Lemma unlink_writable (s : string) (p : list string) (n n' : node) :
  unlink s n p = inr n' -> is_writable_dir n' = is_writable_dir n.
Proof.
  destruct p as [|c rest]; simpl; intros H; [discriminate H|].
  destruct n as [d|w es]; [discriminate H|].
  destruct (lookup c es) as [m|]; [|discriminate H].
  destruct rest as [|c2 rest].
  - destruct w; simpl in H; [|discriminate H].
    destruct m; inversion H. reflexivity.
  - destruct (unlink s m (c2 :: rest)); inversion H. reflexivity.
Qed.

Lemma removable_dir_replace_file (k : string) (d : list byte) (w : bool)
  (es : entries_t) :
  removable (Dir w es) = true ->
  removable (Dir w (replace k (File d) es)) = true.
Proof.
  intros H. assert (Hw : w = true).
  { simpl in H. apply andb_true_iff in H. tauto. }
  subst w. apply removable_entries_replace. exact H.
Qed.

Lemma makedirs_keeps_removable (s t : string) (c n : node) :
  makedirs s c [t] = inr n ->
  removable_opt (child t c) -> removable_opt (child t n).
Proof.
  intros Hmk Hr. destruct c as [d|w es]; [discriminate Hmk|].
  simpl in Hmk. cbn [child] in Hr.
  destruct (lookup t es) as [[d|w' es']|] eqn:E.
  - discriminate Hmk.
  - inversion Hmk. cbn [child]. rewrite lookup_replace_same. exact Hr.
  - destruct w; [|discriminate Hmk]. inversion Hmk. cbn [child].
    rewrite lookup_snoc, E, String.eqb_refl. reflexivity.
Qed.

Lemma open_w_keeps_removable (s t r : string) (n n0 : node) :
  open_w s n [t; r] = inr n0 ->
  removable_opt (child t n) -> removable_opt (child t n0).
Proof.
  intros Hop Hr. destruct n as [d|w es]; [discriminate Hop|].
  rewrite open_w_below in Hop. cbn [child] in Hr.
  destruct (lookup t es) as [m|] eqn:E; [|discriminate Hop].
  destruct (open_w s m [r]) as [e|m'] eqn:Hleaf; [discriminate Hop|].
  inversion Hop. cbn [child]. rewrite lookup_replace_same.
  destruct m as [d|w1 es1]; [discriminate Hleaf|].
  destruct (open_w_leaf _ _ _ _ _ Hleaf) as (es' & -> & Hl & Hrep).
  cbn [removable_opt] in *.
  rewrite <- (replace_same r (File []) es' Hl), Hrep.
  apply removable_dir_replace_file. exact Hr.
Qed.

Lemma write_at_keeps_removable (t r : string) (n : node) (d : list byte) :
  removable_opt (child t n) ->
  removable_opt (child t (write_at n [t; r] d)).
Proof.
  intros Hr. destruct n as [d0|w es]; [exact Hr|].
  cbn [write_at child] in *.
  destruct (lookup t es) as [m|] eqn:E; cbn [child]; [|rewrite E; exact Hr].
  rewrite lookup_replace_same.
  destruct m as [d1|w1 es1]; [exact Hr|].
  cbn [write_at].
  destruct (lookup r es1) as [[d2|w2 es2]|] eqn:Er; cbn [removable_opt] in *.
  - apply removable_dir_replace_file. exact Hr.
  - cbn [write_at]. rewrite (replace_same r _ es1 Er). exact Hr.
  - exact Hr.
Qed.

Lemma open_w_ok (s k : string) (n : node) :
  is_writable_dir n = true -> is_dir (child k n) = false ->
  exists n', open_w s n [k] = inr n'.
Proof.
  intros Hw Hd. destruct n as [d|w es]; [discriminate Hw|].
  simpl in *. subst w.
  destruct (lookup k es) as [[d|w' es']|]; try discriminate Hd;
    eexists; reflexivity.
Qed.

Lemma makedirs_ok (s t : string) (c : node) :
  is_writable_dir c = true ->
  (forall d, child t c <> Some (File d)) ->
  exists n, makedirs s c [t] = inr n.
Proof.
  intros Hw Hf. destruct c as [d|w es]; [discriminate Hw|].
  simpl in *. subst w.
  destruct (lookup t es) as [[d|w' es']|].
  - exfalso. apply (Hf d). reflexivity.
  - eexists. reflexivity.
  - eexists. reflexivity.
Qed.

(** In a usable scratch directory the placeholder file can be opened. *)
Lemma open_dummy_ok (s1 s2 : string) (c n : node) :
  makedirs s1 c [TEMP_DIR] = inr n ->
  scratch_usable c = true ->
  exists n0, open_w s2 n [TEMP_DIR; DUMMY_FILE_NAME] = inr n0.
Proof.
  intros Hmk Hu. unfold scratch_usable in Hu.
  destruct c as [d|w es]; [discriminate Hmk|].
  cbn [child] in Hu. cbn [makedirs] in Hmk.
  destruct (lookup TEMP_DIR es) as [[d|w' es']|] eqn:E.
  - discriminate Hu.
  - change (makedirs s1 (Dir w' es') []) with (@inr exn node (Dir w' es'))
      in Hmk.
    inversion Hmk. rewrite open_w_below, lookup_replace_same.
    cbn [open_w].
    destruct (lookup DUMMY_FILE_NAME es') as [[d|w2 es2]|].
    + eexists. reflexivity.
    + discriminate Hu.
    + subst w'. eexists. reflexivity.
  - destruct w; [|discriminate Hmk].
    change (makedirs s1 (Dir true []) []) with (@inr exn node (Dir true []))
      in Hmk.
    inversion Hmk. rewrite open_w_below, lookup_snoc, E, String.eqb_refl.
    eexists. reflexivity.
Qed.

(** ** Member names of an archive *)

(** An existing scratch directory in which [README.txt] is a directory, or
    is missing while the directory is read-only, refuses the placeholder. *)
Lemma open_dummy_blocked (s : string) (c : node) (w : bool) (es : entries_t) :
  child TEMP_DIR c = Some (Dir w es) ->
  scratch_usable c = false ->
  exists e, open_w s c [TEMP_DIR; DUMMY_FILE_NAME] = inl e.
Proof.
  intros Hc Hu. unfold scratch_usable in Hu. rewrite Hc in Hu.
  destruct c as [d|w0 es0]; [discriminate Hc|].
  cbn [child] in Hc. rewrite open_w_below, Hc. cbn [open_w].
  destruct (lookup DUMMY_FILE_NAME es) as [[d|w2 es2]|].
  - discriminate Hu.
  - eexists. reflexivity.
  - subst w. eexists. reflexivity.
Qed.

Lemma string_app_assoc_fs (a b c : string) :
  ((a ++ b) ++ c = a ++ (b ++ c))%string.
Proof. induction a as [|x r IH]; simpl; [|rewrite IH]; reflexivity. Qed.

Lemma tar_add_names (n : node) :
  forall (arcname : string) (m : member),
  In m (tar_add n arcname) ->
  fst m = arcname \/ exists r, fst m = (arcname ++ "/" ++ r)%string.
Proof.
  induction n as [d|w es IH] using node_rect_nested; intros arcname m Hm.
  - simpl in Hm. destruct Hm as [<-|[]]. left. reflexivity.
  - simpl in Hm. destruct Hm as [<-|Hm]; [left; reflexivity|].
    right. apply in_flat_map in Hm. destruct Hm as ([k add] & Hin & Hm).
    apply (proj1 (In_sorted_by_name _ _)) in Hin. apply in_map_iff in Hin.
    destruct Hin as ([k' sub] & Heq & Hes). simpl in Heq.
    inversion Heq. subst k' add. clear Heq.
    rewrite Forall_forall in IH. specialize (IH (k, sub) Hes). simpl in IH.
    simpl in Hm. destruct (IH _ _ Hm) as [Hname|[r Hname]].
    + exists k. exact Hname.
    + exists (k ++ "/" ++ r)%string. rewrite Hname.
      unfold os_path_join.
      rewrite !string_app_assoc_fs. reflexivity.
Qed.

(** ** Strings, digits and the version string *)

Lemma string_length_app (a b : string) :
  String.length (a ++ b) = String.length a + String.length b.
Proof. induction a as [|c r IH]; simpl; [|rewrite IH]; reflexivity. Qed.

Lemma string_app_assoc (a b c : string) :
  ((a ++ b) ++ c = a ++ (b ++ c))%string.
Proof. induction a as [|x r IH]; simpl; [|rewrite IH]; reflexivity. Qed.

Lemma digit_is_digit (d : nat) : d < 10 -> is_digit (digit d) = true.
Proof.
  intros H. do 10 (destruct d as [|d]; [reflexivity|]). lia.
Qed.

Lemma is_digit_not_slash (c : ascii) :
  is_digit c = true -> Ascii.eqb c "/"%char = false.
Proof.
  intros H. destruct (Ascii.eqb_spec c "/"%char) as [->|]; [|reflexivity].
  discriminate H.
Qed.

Lemma all_digits_app (a b : string) :
  all_digits (a ++ b) = all_digits a && all_digits b.
Proof.
  induction a as [|c r IH]; simpl.
  - reflexivity.
  - rewrite IH, andb_assoc. reflexivity.
Qed.

Lemma all_digits_no_slash (s : string) :
  all_digits s = true -> no_slash s = true.
Proof.
  induction s as [|c r IH]; simpl; intros H.
  - reflexivity.
  - apply andb_true_iff in H. destruct H as [Hc Hr].
    rewrite (is_digit_not_slash c Hc), (IH Hr). reflexivity.
Qed.

Lemma all_digits_zeros (k : nat) : all_digits (zeros k) = true.
Proof. induction k as [|k IH]; simpl; auto. Qed.

Lemma length_zeros (k : nat) : String.length (zeros k) = k.
Proof. induction k as [|k IH]; simpl; auto. Qed.

Lemma decimal_fuel_step (f n : nat) (acc : string) :
  decimal_fuel (S f) n acc =
  if (n / 10 =? 0)%nat then String (digit (n mod 10)) acc
  else decimal_fuel f (n / 10) (String (digit (n mod 10)) acc).
Proof. reflexivity. Qed.

Lemma decimal_fuel_all_digits (f : nat) :
  forall n acc, all_digits acc = true ->
  all_digits (decimal_fuel f n acc) = true.
Proof.
  induction f as [|f IH]; intros n acc Hacc.
  - exact Hacc.
  - rewrite decimal_fuel_step.
    assert (Hd : all_digits (String (digit (n mod 10)) acc) = true).
    { cbn [all_digits]. rewrite Hacc, digit_is_digit; [reflexivity|].
      apply Nat.mod_upper_bound. discriminate. }
    destruct (n / 10 =? 0)%nat; [exact Hd | apply IH; exact Hd].
Qed.

Lemma decimal_fuel_length (k : nat) :
  forall f n acc, 1 <= k -> n < 10 ^ k ->
  String.length (decimal_fuel f n acc) <= k + String.length acc.
Proof.
  induction k as [|k IH]; intros f n acc Hk Hn; [lia|].
  destruct f as [|f]; [simpl; lia|].
  rewrite decimal_fuel_step.
  destruct (n / 10 =? 0)%nat eqn:E.
  - simpl. lia.
  - apply Nat.eqb_neq in E.
    assert (Hq : n / 10 < 10 ^ k).
    { apply Nat.Div0.div_lt_upper_bound. rewrite <- Nat.pow_succ_r'. exact Hn. }
    assert (Hk' : 1 <= k).
    { destruct k as [|k']; [|lia]. change (10 ^ 0) with 1 in Hq. lia. }
    specialize (IH f (n / 10) (String (digit (n mod 10)) acc) Hk' Hq).
    change (String.length (String (digit (n mod 10)) acc))
      with (S (String.length acc)) in IH.
    lia.
Qed.

Lemma zfill_digits (w n : nat) : all_digits (zfill w (decimal n)) = true.
Proof.
  unfold zfill, decimal. rewrite all_digits_app, all_digits_zeros.
  rewrite decimal_fuel_all_digits; reflexivity.
Qed.

Lemma zfill_length (w n : nat) :
  1 <= w -> n < 10 ^ w -> String.length (zfill w (decimal n)) = w.
Proof.
  intros Hw Hn. unfold zfill. rewrite string_length_app, length_zeros.
  pose proof (decimal_fuel_length w (S n) n EmptyString Hw Hn) as H.
  fold (decimal n) in H. simpl in H. lia.
Qed.

Lemma decimal_digits (n : nat) : all_digits (decimal n) = true.
Proof. unfold decimal. apply decimal_fuel_all_digits. reflexivity. Qed.

Lemma decimal_fuel_length_acc (f : nat) :
  forall n acc,
  String.length acc <= String.length (decimal_fuel f n acc).
Proof.
  induction f as [|f IH]; intros n acc; [simpl; lia|].
  rewrite decimal_fuel_step.
  destruct (n / 10 =? 0)%nat.
  - simpl. lia.
  - specialize (IH (n / 10) (String (digit (n mod 10)) acc)).
    change (String.length (String (digit (n mod 10)) acc))
      with (S (String.length acc)) in IH.
    lia.
Qed.

(** A number of at least [10 ^ k] has more than [k] digits. *)
Lemma decimal_fuel_length_ge (k : nat) :
  forall f n acc, 10 ^ k <= n -> n < f ->
  S k + String.length acc <= String.length (decimal_fuel f n acc).
Proof.
  induction k as [|k IH]; intros f n acc Hk Hf.
  - destruct f as [|f]; [lia|]. rewrite decimal_fuel_step.
    destruct (n / 10 =? 0)%nat.
    + simpl. lia.
    + pose proof (decimal_fuel_length_acc f (n / 10)
                    (String (digit (n mod 10)) acc)) as H.
      change (String.length (String (digit (n mod 10)) acc))
        with (S (String.length acc)) in H.
      lia.
  - destruct f as [|f]; [lia|]. rewrite decimal_fuel_step.
    rewrite Nat.pow_succ_r' in Hk.
    assert (Hq : 10 ^ k <= n / 10).
    { apply Nat.div_le_lower_bound; [discriminate | exact Hk]. }
    assert (Hpos : 0 < 10 ^ k).
    { apply Nat.neq_0_lt_0. apply Nat.pow_nonzero. discriminate. }
    assert (Hn : 0 < n) by lia.
    pose proof (Nat.div_lt n 10 Hn ltac:(lia)) as Hlt.
    destruct (n / 10 =? 0)%nat eqn:E.
    + apply Nat.eqb_eq in E. lia.
    + specialize (IH f (n / 10) (String (digit (n mod 10)) acc) Hq
                    ltac:(lia)).
      change (String.length (String (digit (n mod 10)) acc))
        with (S (String.length acc)) in IH.
      lia.
Qed.

(** A year from 1000 to 9999 is rendered with four digits. *)
Lemma year_length (y : nat) :
  1000 <= y -> y <= 9999 -> String.length (decimal y) = 4.
Proof.
  intros Hlo Hhi.
  assert (E4 : 10 ^ 4 = S 9999) by (vm_compute; reflexivity).
  assert (E3 : 10 ^ 3 = 1000) by reflexivity.
  pose proof (decimal_fuel_length 4 (S y) y EmptyString ltac:(lia)
                ltac:(rewrite E4; lia)) as Hup.
  pose proof (decimal_fuel_length_ge 3 (S y) y EmptyString
                ltac:(rewrite E3; exact Hlo) ltac:(lia)) as Hdown.
  fold (decimal y) in Hup, Hdown. simpl String.length in Hup, Hdown. lia.
Qed.

Lemma version_all_digits (t : datetime) :
  all_digits (strftime_YmdHMS t) = true.
Proof.
  unfold strftime_YmdHMS.
  repeat rewrite all_digits_app. rewrite decimal_digits.
  repeat rewrite zfill_digits. reflexivity.
Qed.

Lemma version_length (t : datetime) :
  valid_datetime t = true -> four_digit_year t = true ->
  String.length (strftime_YmdHMS t) = 14.
Proof.
  unfold valid_datetime, four_digit_year. intros H Hy.
  repeat (apply andb_true_iff in H; destruct H as [H ?]).
  repeat match goal with
         | Hx : (_ <=? _)%nat = true |- _ => apply Nat.leb_le in Hx
         end.
  unfold strftime_YmdHMS. repeat rewrite string_length_app.
  rewrite (year_length (year t)) by assumption.
  rewrite (zfill_length 2 (month t)),
    (zfill_length 2 (day t)), (zfill_length 2 (hour t)),
    (zfill_length 2 (minute t)), (zfill_length 2 (second t));
    try reflexivity; try lia;
    try (change (10 ^ 2) with 100; lia).
Qed.

Lemma take_digits_app (v t : string) :
  all_digits v = true -> take_digits (String.length v) (v ++ t) = Some t.
Proof.
  induction v as [|c r IH]; simpl; intros H.
  - reflexivity.
  - apply andb_true_iff in H. destruct H as [Hc Hr]. rewrite Hc. auto.
Qed.

(** ** File names of a run *)

Section Names.

Variable env : environment.

Lemma tar_name_no_slash : no_slash (tar_name env) = true.
Proof.
  unfold tar_name, PACKAGE_VERSION. repeat rewrite no_slash_app.
  rewrite (all_digits_no_slash _ (version_all_digits (now env))).
  reflexivity.
Qed.

Lemma zst_name_no_slash : no_slash (zst_name env) = true.
Proof.
  unfold zst_name. rewrite no_slash_app, tar_name_no_slash. reflexivity.
Qed.

Lemma split_tar_name : split_slash (tar_name env) = [tar_name env].
Proof. apply split_slash_no_slash, tar_name_no_slash. Qed.

Lemma split_zst_name : split_slash (zst_name env) = [zst_name env].
Proof. apply split_slash_no_slash, zst_name_no_slash. Qed.

Lemma temp_neq_tar : TEMP_DIR <> tar_name env.
Proof. unfold tar_name. simpl. discriminate. Qed.

Lemma temp_neq_zst : TEMP_DIR <> zst_name env.
Proof. unfold zst_name, tar_name. simpl. discriminate. Qed.

Lemma tar_neq_zst : tar_name env <> zst_name env.
Proof.
  unfold zst_name. intros H.
  apply (f_equal String.length) in H. rewrite string_length_app in H.
  simpl in H. lia.
Qed.

Lemma zst_matches_pattern :
  valid_datetime (now env) = true ->
  four_digit_year (now env) = true ->
  matches_output_pattern (zst_name env) = true.
Proof.
  intros Hv Hy. unfold matches_output_pattern, zst_name, tar_name.
  cbn [PACKAGE_NAME append strip_prefix Ascii.eqb Bool.eqb].
  rewrite string_app_assoc.
  rewrite <- (version_length _ Hv Hy).
  unfold PACKAGE_VERSION.
  rewrite take_digits_app by apply version_all_digits.
  reflexivity.
Qed.

End Names.

(** ** Symbolic execution of the script

    The [try] suite is straight-line code: a run is determined by the first
    step that raises.  [exec_step] splits on the outcome of the next pending
    call, so that [repeat exec_step] leaves one goal per path. *)

Ltac head_scrutinee t :=
  lazymatch t with
  | context [match ?x with _ => _ end] =>
      lazymatch x with
      | context [match _ with _ => _ end] => head_scrutinee x
      | _ => x
      end
  end.

Ltac exec_step :=
  match goal with
  | |- ?G => let x := head_scrutinee G in destruct x eqn:?
  end;
  cbn [fst snd cwd stdout trace var_tar_file_name set_cwd app].

Section Exec.

Context {L : Libraries}.
Variable env : environment.

Ltac unfold_script :=
  unfold before_cleanup, try_suite, os_makedirs, open_write, fs_call,
    write_call, read_call, tar_add_and_close, hexdigest_of, print, begin,
    assign_tar_file_name, bind, ret, init;
  change (split_slash TEMP_DIR) with [TEMP_DIR];
  change (split_slash (os_path_join TEMP_DIR DUMMY_FILE_NAME))
    with [TEMP_DIR; DUMMY_FILE_NAME];
  change (os_path_basename TEMP_DIR) with TEMP_DIR;
  change (PACKAGE_NAME ++ "-" ++ PACKAGE_VERSION env ++ ".tar")%string
    with (tar_name env);
  change (tar_name env ++ ".zst")%string with (zst_name env);
  rewrite ?split_tar_name, ?split_zst_name;
  cbn [fst snd cwd stdout trace var_tar_file_name set_cwd app].

Ltac names_neq :=
  first [ exact (temp_neq_tar env) | exact (temp_neq_zst env)
        | exact (tar_neq_zst env)
        | exact (not_eq_sym (temp_neq_tar env))
        | exact (not_eq_sym (temp_neq_zst env))
        | exact (not_eq_sym (tar_neq_zst env)) ].

(** Rewrite [child k n'] back along the calls that produced [n']. *)
Ltac frame :=
  repeat first
    [ rewrite write_at_frame by names_neq
    | rewrite rm_rf_frame by names_neq
    | match goal with
      | H : open_w _ ?n _ = inr ?n' |- context [child ?k ?n'] =>
          rewrite (open_w_frame _ k _ _ n n' H) by names_neq
      | H : makedirs _ ?n _ = inr ?n' |- context [child ?k ?n'] =>
          rewrite (makedirs_frame _ k _ _ n n' H) by names_neq
      | H : unlink _ ?n _ = inr ?n' |- context [child ?k ?n'] =>
          rewrite (unlink_frame _ k _ _ n n' H) by names_neq
      end ].

(** *** The steps started by the [try] suite form a prefix of the happy
    path: all of it on success, a proper non-empty part otherwise. *)
Lemma try_trace (c : node) :
  exists pre post,
    trace (snd (before_cleanup env c)) = pre /\
    happy_path = pre ++ post /\
    match fst (before_cleanup env c) with
    | inr _ => post = []
    | inl _ => pre <> [] /\ post <> []
    end.
Proof.
  unfold_script. repeat exec_step.
  all: do 2 eexists; split; [reflexivity|]; split; [reflexivity|].
  all: try reflexivity; split; discriminate.
Qed.

(** *** [tar_file_name] is bound exactly when the run reached
    [tarfile.open]. *)
Lemma try_var (c : node) :
  (existsb (step_eqb TarOpen) (trace (snd (before_cleanup env c))) = true ->
   var_tar_file_name (snd (before_cleanup env c)) = Some (tar_name env)) /\
  (existsb (step_eqb TarOpen) (trace (snd (before_cleanup env c))) = false ->
   var_tar_file_name (snd (before_cleanup env c)) = None).
Proof.
  unfold_script. repeat exec_step.
  all: split; intros Hx; vm_compute in Hx; try discriminate Hx; reflexivity.
Qed.

(** *** Files of later steps are untouched *)
Lemma try_tar_frame (c : node) :
  existsb (step_eqb TarOpen) (trace (snd (before_cleanup env c))) = false ->
  child (tar_name env) (cwd (snd (before_cleanup env c))) =
  child (tar_name env) c.
Proof.
  unfold_script. repeat exec_step.
  all: intros Hx; try discriminate Hx.
  all: frame; reflexivity.
Qed.

Lemma try_zst_frame (c : node) :
  existsb (step_eqb OpenZstWrite) (trace (snd (before_cleanup env c))) = false ->
  child (zst_name env) (cwd (snd (before_cleanup env c))) =
  child (zst_name env) c.
Proof.
  unfold_script. repeat exec_step.
  all: intros Hx; try discriminate Hx.
  all: frame; reflexivity.
Qed.

Lemma resolve_single (n : node) (k : string) : resolve n [k] = child k n.
Proof. simpl. destruct (child k n); reflexivity. Qed.

(** *** What a completed [try] suite leaves behind *)
Lemma try_success (c : node) :
  fst (before_cleanup env c) = inr tt ->
  let st := snd (before_cleanup env c) in
  let image := tar_serialize (tar_add (scratch_tree c) TEMP_DIR) in
  child TEMP_DIR (cwd st) = Some (scratch_tree c) /\
  child (tar_name env) (cwd st) = Some (File image) /\
  child (zst_name env) (cwd st) = Some (File (zstd_compress image)) /\
  stdout st = results_stdout env (hexlify (sha256 (zstd_compress image))).
Proof.
  unfold_script. repeat exec_step.
  all: intros Hx; try discriminate Hx.
  lazymatch goal with
  | Hmk : makedirs _ c _ = inr ?n,
    Hop : open_w _ ?n [TEMP_DIR; DUMMY_FILE_NAME] = inr ?n0,
    Htar : open_w _ _ [tar_name env] = inr ?n1,
    Hres : resolve ?n1 [TEMP_DIR] = Some ?tree,
    Hrd : open_r (tar_name env) _ _ = inr ?l,
    Hzst : open_w _ _ [zst_name env] = inr ?n3,
    Hrz : open_r (zst_name env) _ _ = inr ?l0 |- _ =>
      assert (Htree : child TEMP_DIR n1 = Some (scratch_tree c))
        by (rewrite (open_w_frame _ TEMP_DIR _ _ _ _ Htar) by names_neq;
            exact (scratch_after_write _ _ _ _ _ _ _ README_BYTES Hmk Hop));
      assert (tree = scratch_tree c)
        by (rewrite resolve_single, Htree in Hres; congruence);
      subst tree;
      apply open_r_content in Hrd;
      rewrite (write_at_file _ _ [] _ (open_w_creates _ _ _ _ Htar)) in Hrd;
      inversion Hrd; subst l; clear Hrd;
      apply open_r_content in Hrz;
      erewrite write_at_file in Hrz
        by (apply (write_at_file _ _ [] _ (open_w_creates _ _ _ _ Hzst)));
      inversion Hrz; subst l0; clear Hrz;
      repeat split;
      [ frame; exact (scratch_after_write _ _ _ _ _ _ _ README_BYTES Hmk Hop)
      | frame; apply (write_at_file _ _ [] _ (open_w_creates _ _ _ _ Htar))
      | eapply write_at_file;
        apply (write_at_file _ _ [] _ (open_w_creates _ _ _ _ Hzst)) ]
  end.
Qed.

(** *** Once [copy_stream] has started, the output file exists; it holds
    a prefix of the compressed archive. *)
Lemma try_zst_written (c : node) :
  existsb (step_eqb CopyStream) (trace (snd (before_cleanup env c))) = true ->
  exists k,
    child (zst_name env) (cwd (snd (before_cleanup env c))) =
    Some (File (firstn k (zstd_compress
                            (tar_serialize (tar_add (scratch_tree c) TEMP_DIR))))).
Proof.
  unfold_script. repeat exec_step.
  all: intros Hx; vm_compute in Hx; try discriminate Hx; clear Hx.
  all: lazymatch goal with
  | Hmk : makedirs _ ?c0 _ = inr ?n,
    Hop : open_w _ ?n [TEMP_DIR; DUMMY_FILE_NAME] = inr ?n0,
    Htar : open_w _ _ [tar_name env] = inr ?n1,
    Hres : resolve ?n1 [TEMP_DIR] = Some ?tree,
    Hrd : open_r (tar_name env) _ _ = inr ?l,
    Hzst : open_w _ _ [zst_name env] = inr ?n3 |- _ =>
      assert (Htree : child TEMP_DIR n1 = Some (scratch_tree c0))
        by (rewrite (open_w_frame _ TEMP_DIR _ _ _ _ Htar) by names_neq;
            exact (scratch_after_write _ _ _ _ _ _ _ README_BYTES Hmk Hop));
      assert (tree = scratch_tree c0)
        by (rewrite resolve_single, Htree in Hres; congruence);
      subst tree;
      apply open_r_content in Hrd;
      rewrite (write_at_file _ _ [] _ (open_w_creates _ _ _ _ Htar)) in Hrd;
      inversion Hrd; subst l; clear Hrd;
      pose proof (open_w_creates _ _ _ _ Hzst) as Hnew
  end.
  all: first
    [ eexists; eapply write_at_file; eapply write_at_file; eassumption
    | eexists; eapply write_at_file; eassumption
    | eexists; rewrite firstn_all; eapply write_at_file;
      eapply write_at_file; eassumption ].
Qed.

(** *** With the scratch directory in place, [os.makedirs] passes and the
    run goes on to open the placeholder file. *)
Lemma try_reaches_open (c : node) (w : bool) (es : entries_t) :
  child TEMP_DIR c = Some (Dir w es) ->
  faults env Makedirs = None ->
  existsb (step_eqb OpenDummy) (trace (snd (before_cleanup env c))) = true.
Proof.
  intros Hc Hf. pose proof (makedirs_existing TEMP_DIR _ _ _ _ Hc) as Hmk.
  unfold_script. rewrite Hf, Hmk.
  cbn [fst snd cwd stdout trace var_tar_file_name set_cwd app].
  repeat exec_step. all: reflexivity.
Qed.

(** *** With a usable scratch directory in place and no I/O error in the
    first three calls, the placeholder is written into it; whatever happens
    later in the [try] suite leaves it there. *)
Lemma try_writes_placeholder (c : node) (w : bool) (es : entries_t) :
  child TEMP_DIR c = Some (Dir w es) ->
  faults env Makedirs = None ->
  faults env OpenDummy = None ->
  faults env WriteDummy = None ->
  scratch_usable c = true ->
  existsb (step_eqb WriteDummy) (trace (snd (before_cleanup env c))) = true /\
  child TEMP_DIR (cwd (snd (before_cleanup env c))) =
    Some (Dir w (replace DUMMY_FILE_NAME (File README_BYTES) es)) /\
  In ("Created dummy file: " ++ os_path_join TEMP_DIR DUMMY_FILE_NAME)%string
     (stdout (snd (before_cleanup env c))).
Proof.
  intros Hc Hf1 Hf2 Hf3 Hu.
  pose proof (makedirs_existing TEMP_DIR _ _ _ _ Hc) as Hmk.
  destruct (open_dummy_ok TEMP_DIR (os_path_join TEMP_DIR DUMMY_FILE_NAME)
              c c Hmk Hu) as [n0 Hop].
  pose proof (scratch_after_write _ _ _ _ _ _ _ README_BYTES Hmk Hop)
    as Htree.
  rewrite Hc in Htree.
  unfold_script. rewrite Hf1, Hmk.
  cbn [fst snd cwd stdout trace var_tar_file_name set_cwd app].
  rewrite Hf2, Hop.
  cbn [fst snd cwd stdout trace var_tar_file_name set_cwd app].
  rewrite Hf3.
  cbn [fst snd cwd stdout trace var_tar_file_name set_cwd app].
  repeat exec_step.
  all: split; [reflexivity|]; split;
    [frame; exact Htree | cbn [In]; right; left; reflexivity].
Qed.

(** *** With a scratch directory in place that refuses the placeholder, the
    [try] suite stops at the [open] call: nothing is written and the
    directory is as it was. *)
Lemma try_placeholder_blocked (c : node) (w : bool) (es : entries_t) :
  child TEMP_DIR c = Some (Dir w es) ->
  faults env Makedirs = None ->
  scratch_usable c = false ->
  (exists e, fst (before_cleanup env c) = inl e) /\
  trace (snd (before_cleanup env c)) = [Makedirs; OpenDummy] /\
  cwd (snd (before_cleanup env c)) = c.
Proof.
  intros Hc Hf1 Hu.
  pose proof (makedirs_existing TEMP_DIR _ _ _ _ Hc) as Hmk.
  destruct (open_dummy_blocked (os_path_join TEMP_DIR DUMMY_FILE_NAME)
              c w es Hc Hu) as [e Hop].
  unfold_script. rewrite Hf1, Hmk.
  cbn [fst snd cwd stdout trace var_tar_file_name set_cwd app].
  rewrite Hop.
  destruct (faults env OpenDummy) as [ft|];
    cbn [fst snd cwd stdout trace var_tar_file_name set_cwd app];
    (split; [eexists; reflexivity|]); split; reflexivity.
Qed.

(** *** The [finally] suite *)

Ltac unfold_finally :=
  unfold finally_suite, os_path_exists, os_system_rm_rf, os_remove,
    load_tar_file_name, fs_call, print, begin, bind, ret;
  change (split_slash TEMP_DIR) with [TEMP_DIR];
  cbn [fst snd cwd stdout trace var_tar_file_name set_cwd app].

Lemma finally_stdout (st : state) :
  stdout (snd (finally_suite env st)) = stdout st ++ [cleanup_line].
Proof.
  unfold_finally. repeat exec_step. all: reflexivity.
Qed.

(** With [tar_file_name] unbound the suite stops with [NameError], after
    the scratch directory was dealt with and before any [os.remove]. *)
Lemma finally_unbound (st : state) :
  var_tar_file_name st = None ->
  fst (finally_suite env st) = inl (NameError "tar_file_name") /\
  (exists cl, trace (snd (finally_suite env st)) = trace st ++ CleanupStart :: cl
              /\ (cl = [] \/ cl = [RmRf])
              /\ (exists_at (cwd st) [TEMP_DIR] = true -> cl = [RmRf])) /\
  forall k, k <> TEMP_DIR ->
    child k (cwd (snd (finally_suite env st))) = child k (cwd st).
Proof.
  intros Hv. unfold_finally. rewrite Hv.
  destruct (exists_at (cwd st) [TEMP_DIR]) eqn:Ex;
    cbn [fst snd cwd stdout trace var_tar_file_name set_cwd app].
  - split; [reflexivity|]. split.
    + exists [RmRf]. rewrite <- app_assoc. auto.
    + intros k Hk. apply rm_rf_frame. exact Hk.
  - split; [reflexivity|]. split.
    + exists []. split; [reflexivity|]. split; [auto|discriminate].
    + reflexivity.
Qed.

(** With [tar_file_name] bound, the only statement of the suite that can
    raise is [os.remove]. *)
Lemma finally_bound (st : state) :
  var_tar_file_name st = Some (tar_name env) ->
  (exists cl, trace (snd (finally_suite env st)) = trace st ++ CleanupStart :: cl
              /\ incl cl [RmRf; RemoveTar]
              /\ (exists_at (cwd st) [TEMP_DIR] = true -> In RmRf cl)
              /\ (exists_at (cwd st) [tar_name env] = true -> In RemoveTar cl)
              /\ (forall e, fst (finally_suite env st) = inl e ->
                   last cl CleanupStart = RemoveTar)) /\
  (fst (finally_suite env st) = inr tt ->
   child (tar_name env) (cwd (snd (finally_suite env st))) = None) /\
  forall k, k <> TEMP_DIR -> k <> tar_name env ->
    child k (cwd (snd (finally_suite env st))) = child k (cwd st).
Proof.
  intros Hv. unfold_finally. rewrite Hv.
  destruct (exists_at (cwd st) [TEMP_DIR]) eqn:Ex;
    cbn [fst snd cwd stdout trace var_tar_file_name set_cwd app];
    rewrite split_tar_name, !exists_at_child;
    try rewrite (rm_rf_frame (tar_name env) TEMP_DIR [] (cwd st))
      by names_neq;
    destruct (child (tar_name env) (cwd st)) as [m|] eqn:Et;
    cbn [fst snd cwd stdout trace var_tar_file_name set_cwd app];
    repeat exec_step.
  all: repeat rewrite <- app_assoc; cbn [app].
  all: split;
    [ eexists; split; [reflexivity|]; split;
      [ intros x Hx; simpl in *; tauto
      | split; [intros Hy; first [discriminate Hy | simpl; tauto]|];
        split; [intros Hy; first [discriminate Hy | simpl; tauto]|];
        intros e0 He0; first [discriminate He0 | reflexivity] ]
    | split;
      [ intros Hok; try discriminate Hok
      | intros k Hk1 Hk2 ] ].
  all: try (eapply unlink_removes; eassumption).
  all: try (frame; first [reflexivity | exact Et]).
  all: try (rewrite (unlink_frame _ k _ _ _ _ ltac:(eassumption)) by assumption).
  all: try (rewrite rm_rf_frame by assumption); try reflexivity.
  all: try (rewrite rm_rf_frame by names_neq; assumption).
Qed.

(** [rm -rf] gets rid of a scratch tree it is allowed to delete. *)
Lemma finally_scratch_removed (st : state) (es : entries_t) (n : node) :
  cwd st = Dir true es ->
  child TEMP_DIR (cwd st) = Some n ->
  removable n = true ->
  var_tar_file_name st = None \/ var_tar_file_name st = Some (tar_name env) ->
  child TEMP_DIR (cwd (snd (finally_suite env st))) = None.
Proof.
  intros Hc Hn Hr Hv.
  assert (Hrm : child TEMP_DIR (rm_rf (cwd st) [TEMP_DIR]) = None).
  { rewrite Hc in *. simpl in Hn |- *.
    apply (lookup_rm_named_removable _ n); assumption. }
  unfold_finally. rewrite exists_at_child, Hn.
  cbn [fst snd cwd stdout trace var_tar_file_name set_cwd app].
  destruct Hv as [Hv|Hv]; rewrite Hv;
    cbn [fst snd cwd stdout trace var_tar_file_name set_cwd app].
  - exact Hrm.
  - rewrite split_tar_name. repeat exec_step.
    all: try exact Hrm.
    frame. exact Hrm.
Qed.

(** When the working directory is writable and the tar path holds no
    directory, [os.remove] has no reason to fail. *)
Lemma finally_ok (st : state) :
  var_tar_file_name st = Some (tar_name env) ->
  is_writable_dir (cwd st) = true ->
  is_dir (child (tar_name env) (cwd st)) = false ->
  faults env RemoveTar = None ->
  fst (finally_suite env st) = inr tt.
Proof.
  intros Hv Hw Hd Hf. unfold_finally. rewrite Hv, Hf.
  destruct (exists_at (cwd st) [TEMP_DIR]) eqn:Ex;
    cbn [fst snd cwd stdout trace var_tar_file_name set_cwd app];
    rewrite split_tar_name, !exists_at_child;
    try rewrite (rm_rf_frame (tar_name env) TEMP_DIR [] (cwd st))
      by names_neq;
    destruct (child (tar_name env) (cwd st)) as [[d|w es]|] eqn:Et;
    cbn [fst snd cwd stdout trace var_tar_file_name set_cwd app];
    try discriminate Hd; try reflexivity.
  - destruct (unlink_file_ok (tar_name env) (tar_name env)
                (rm_rf (cwd st) [TEMP_DIR]) d) as [n' Hn'].
    + rewrite rm_rf_writable. exact Hw.
    + rewrite rm_rf_frame by names_neq. exact Et.
    + rewrite Hn'. reflexivity.
  - destruct (unlink_file_ok (tar_name env) (tar_name env) (cwd st) d Hw Et)
      as [n' Hn'].
    rewrite Hn'. reflexivity.
Qed.

(** *** The [try] suite keeps the permission of the working directory and
    leaves no directory at the tar path unless one was there. *)
Lemma try_keeps_writable (c : node) :
  is_writable_dir (cwd (snd (before_cleanup env c))) = is_writable_dir c.
Proof.
  unfold_script. repeat exec_step.
  all: repeat first
    [ rewrite write_at_writable by discriminate
    | match goal with
      | H : open_w _ ?n _ = inr ?n' |- context [is_writable_dir ?n'] =>
          rewrite (open_w_writable _ _ n n' H)
      | H : makedirs _ ?n _ = inr ?n' |- context [is_writable_dir ?n'] =>
          rewrite (makedirs_writable _ _ n n' H)
      end ].
  all: reflexivity.
Qed.

Lemma try_tar_not_dir (c : node) :
  is_dir (child (tar_name env) c) = false ->
  is_dir (child (tar_name env) (cwd (snd (before_cleanup env c)))) = false.
Proof.
  intros Hd. unfold_script. repeat exec_step.
  all: frame.
  all: first
    [ exact Hd
    | erewrite write_at_file by (eapply open_w_creates; eassumption);
      reflexivity
    | erewrite open_w_creates by eassumption; reflexivity ].
Qed.

(** *** A run is the [try] suite, the handler when it raised, and the
    [finally] suite. *)
Lemma run_unfold (c : node) :
  run env c =
  match before_cleanup env c with
  | (inr _, st) => finally_suite env st
  | (inl e, st) => finally_suite env (snd (except_handler e st))
  end.
Proof.
  unfold run, main, try_except_finally, before_cleanup.
  destruct (try_suite env (init c)) as [[e|u] st]; reflexivity.
Qed.

Lemma run_eq (c : node) :
  run env c = finally_suite env (entering_finally env c).
Proof.
  rewrite run_unfold. unfold entering_finally.
  destruct (before_cleanup env c) as [[e|u] st]; reflexivity.
Qed.

Lemma entering_cwd (c : node) :
  cwd (entering_finally env c) = cwd (snd (before_cleanup env c)).
Proof.
  unfold entering_finally.
  destruct (before_cleanup env c) as [[e|u] st]; reflexivity.
Qed.

Lemma entering_trace (c : node) :
  trace (entering_finally env c) = trace (snd (before_cleanup env c)).
Proof.
  unfold entering_finally.
  destruct (before_cleanup env c) as [[e|u] st]; reflexivity.
Qed.

Lemma entering_var (c : node) :
  var_tar_file_name (entering_finally env c) =
  var_tar_file_name (snd (before_cleanup env c)).
Proof.
  unfold entering_finally.
  destruct (before_cleanup env c) as [[e|u] st]; reflexivity.
Qed.

Lemma entering_stdout (c : node) :
  stdout (entering_finally env c) =
  match fst (before_cleanup env c) with
  | inr _ => stdout (snd (before_cleanup env c))
  | inl e => stdout (snd (before_cleanup env c))
             ++ ["An error occurred: " ++ exn_str e]%string
  end.
Proof.
  unfold entering_finally.
  destruct (before_cleanup env c) as [[e|u] st]; reflexivity.
Qed.

Lemma var_cases (c : node) :
  var_tar_file_name (snd (before_cleanup env c)) = None \/
  var_tar_file_name (snd (before_cleanup env c)) = Some (tar_name env).
Proof.
  destruct (try_var c) as [Ht Hf].
  destruct (existsb (step_eqb TarOpen) (trace (snd (before_cleanup env c))));
    auto.
Qed.

Lemma handler_state (e : exn) (st : state) :
  snd (except_handler e st) =
  State (cwd st) (stdout st ++ ["An error occurred: " ++ exn_str e]%string)
        (trace st) (var_tar_file_name st).
Proof. reflexivity. Qed.

End Exec.

(** ** Prefixes of the happy path *)

Lemma In_prefixes {A : Type} (pre post : list A) :
  In pre (prefixes (pre ++ post)).
Proof.
  induction pre as [|x r IH]; simpl.
  - destruct post; simpl; auto.
  - right. apply in_map. exact IH.
Qed.


(** ** Steps before and after the one that raised *)

Lemma step_eqb_eq (a b : step) : step_eqb a b = true <-> a = b.
Proof.
  unfold step_eqb. destruct (step_eq_dec a b); split; congruence.
Qed.

Lemma existsb_step_In (k : step) (l : list step) :
  existsb (step_eqb k) l = true <-> In k l.
Proof.
  rewrite existsb_exists. split.
  - intros (x & Hx & E). apply step_eqb_eq in E. subst. exact Hx.
  - intros H. exists k. split; [exact H | apply step_eqb_eq; reflexivity].
Qed.

Lemma existsb_step_not_In (k : step) (l : list step) :
  existsb (step_eqb k) l = false <-> ~ In k l.
Proof.
  rewrite <- existsb_step_In.
  destruct (existsb (step_eqb k) l); split; congruence.
Qed.

Lemma last_app_cons {A : Type} (l : list A) (x : A) (r : list A) (d : A) :
  last (l ++ x :: r) d = last (x :: r) d.
Proof.
  induction l as [|y l IH]; [reflexivity|].
  simpl app. destruct (l ++ x :: r) eqn:E.
  - destruct l; discriminate E.
  - change (last (y :: a :: l0) d) with (last (a :: l0) d). exact IH.
Qed.

Lemma last_cons_default {A : Type} (x : A) (r : list A) (d d' : A) :
  last (x :: r) d = last (x :: r) d'.
Proof.
  revert x. induction r as [|y r IH]; intros x; [reflexivity|].
  change (last (x :: y :: r) d) with (last (y :: r) d).
  change (last (x :: y :: r) d') with (last (y :: r) d').
  apply IH.
Qed.

(** Split [happy_path = pre ++ post] into its thirteen instances. *)
Ltac enum_prefix Hhp :=
  match type of Hhp with
  | happy_path = ?pre ++ ?post =>
      let Hin := fresh "Hin" in
      pose proof (In_prefixes pre post) as Hin;
      rewrite <- Hhp in Hin; unfold happy_path in Hin, Hhp;
      simpl in Hin;
      repeat (destruct Hin as [Hin|Hin];
              [ rewrite <- Hin in *; clear Hin; simpl in Hhp; inversion Hhp; subst post
              | ]);
      [ .. | contradiction Hin ]
  end.

(** A step after the failing one is no step before it, and no clean-up
    step. *)
Lemma later_steps_fresh (pre post : list step) (s : step) :
  happy_path = pre ++ post -> In s post ->
  ~ In s pre /\ ~ In s [CleanupStart; RmRf; RemoveTar].
Proof.
  intros Hhp Hs. enum_prefix Hhp.
  all: simpl in Hs |- *; intuition (subst; discriminate).
Qed.

Lemma post_ends_with_print (pre post : list step) :
  happy_path = pre ++ post -> post <> [] -> In PrintResults post.
Proof.
  intros Hhp Hne. enum_prefix Hhp.
  all: simpl; first [tauto | congruence].
Qed.

(** The prefix decides whether [tarfile.open] was reached. *)
Lemma early_prefix (pre post : list step) :
  happy_path = pre ++ post ->
  In (last pre Makedirs) [Makedirs; OpenDummy; WriteDummy] ->
  ~ In TarOpen pre.
Proof.
  intros Hhp Hl. enum_prefix Hhp.
  all: simpl in Hl |- *; intuition discriminate.
Qed.

Lemma late_prefix (pre post : list step) :
  happy_path = pre ++ post ->
  In (last pre Makedirs) [CopyStream; CloseZst; ReadZst; Hash] ->
  In CopyStream pre.
Proof.
  intros Hhp Hl. enum_prefix Hhp.
  all: simpl in Hl |- *; intuition discriminate.
Qed.

(** ** Whole runs *)

Section Run.

Context {L : Libraries}.
Variable env : environment.

(** The [finally] suite appends its own steps to those of the [try]
    suite: [rm -rf] when the scratch directory exists, [os.remove] when the
    variable is bound and the tar file exists. *)
Lemma run_trace (c : node) :
  exists cl,
    trace (snd (run env c)) =
      trace (snd (before_cleanup env c)) ++ CleanupStart :: cl /\
    incl cl [RmRf; RemoveTar] /\
    (exists_at (cwd (snd (before_cleanup env c))) [TEMP_DIR] = true ->
     In RmRf cl) /\
    (In TarOpen (trace (snd (before_cleanup env c))) ->
     exists_at (cwd (snd (before_cleanup env c))) [tar_name env] = true ->
     In RemoveTar cl) /\
    (In TarOpen (trace (snd (before_cleanup env c))) ->
     forall e, fst (run env c) = inl e -> last cl CleanupStart = RemoveTar).
Proof.
  rewrite run_eq.
  destruct (try_var env c) as [Hbound Hunbound].
  destruct (existsb (step_eqb TarOpen) (trace (snd (before_cleanup env c))))
    eqn:Ex.
  - specialize (Hbound eq_refl). rewrite <- entering_var in Hbound.
    destruct (finally_bound env _ Hbound) as [(cl & Ht & Hi & Hr & Hx & Hl) _].
    rewrite entering_trace, entering_cwd in *.
    exists cl. repeat split; auto.
  - specialize (Hunbound eq_refl). rewrite <- entering_var in Hunbound.
    apply existsb_step_not_In in Ex.
    destruct (finally_unbound env _ Hunbound) as (_ & (cl & Ht & Hc & Hr) & _).
    rewrite entering_trace, entering_cwd in *.
    exists cl. repeat split; auto; try contradiction.
    + intros x Hx. destruct Hc as [->| ->]; simpl in *; tauto.
    + intros Hy. rewrite (Hr Hy). simpl. tauto.
Qed.

(** The compressed output is never touched by the [finally] suite. *)
Lemma run_keeps_zst (c : node) :
  child (zst_name env) (cwd (snd (run env c))) =
  child (zst_name env) (cwd (snd (before_cleanup env c))).
Proof.
  rewrite run_eq, <- entering_cwd.
  destruct (var_cases env c) as [Hv|Hv]; rewrite <- entering_var in Hv.
  - destruct (finally_unbound env _ Hv) as (_ & _ & Hfr).
    apply Hfr. exact (not_eq_sym (temp_neq_zst env)).
  - destruct (finally_bound env _ Hv) as (_ & _ & Hfr).
    apply Hfr.
    + exact (not_eq_sym (temp_neq_zst env)).
    + exact (not_eq_sym (tar_neq_zst env)).
Qed.

Lemma run_stdout (c : node) :
  stdout (snd (run env c)) =
  stdout (entering_finally env c) ++ [cleanup_line].
Proof. rewrite run_eq. apply finally_stdout. Qed.

Lemma succeeded_trace (c : node) :
  succeeded env c -> trace (snd (before_cleanup env c)) = happy_path.
Proof.
  unfold succeeded. intros Hs.
  destruct (try_trace env c) as (pre & post & Htr & Hhp & Hres).
  rewrite Hs in Hres. subst post. rewrite app_nil_r in Hhp. congruence.
Qed.

Lemma raised_trace (c : node) (e : exn) :
  raised env c e ->
  exists pre post,
    trace (snd (before_cleanup env c)) = pre /\ happy_path = pre ++ post /\
    pre <> [] /\ post <> [].
Proof.
  unfold raised. intros Hr.
  destruct (try_trace env c) as (pre & post & Htr & Hhp & Hres).
  rewrite Hr in Hres. exists pre, post. tauto.
Qed.

End Run.

(** * The claims *)

Section Claims.

Context {L : Libraries}.
Variable env : environment.

Lemma early_failure_unbound (c : node) (e : exn) :
  raised env c e ->
  In (failing_step env c) [Makedirs; OpenDummy; WriteDummy] ->
  var_tar_file_name (entering_finally env c) = None.
Proof.
  intros Hr Hk.
  destruct (raised_trace env c e Hr) as (pre & post & Htr & Hhp & _ & _).
  unfold failing_step in Hk. rewrite Htr in Hk.
  pose proof (early_prefix pre post Hhp Hk) as Hno.
  rewrite <- Htr in Hno. apply existsb_step_not_In in Hno.
  rewrite entering_var. apply (try_var env c). exact Hno.
Qed.

(** C1 (the code departs from the claim).  Every run whose [try] suite
    raises before [tar_file_name] is assigned -- at [os.makedirs], at the
    [open] of the placeholder file or while writing it -- prints the error
    message and the clean-up line, and then ends with an uncaught
    [NameError]: the [finally] suite reads the unbound variable.  No
    [os.remove] is attempted, and the run does not terminate normally. *)
Theorem C1_early_failure_ends_in_NameError (c : node) (e : exn) :
  raised env c e ->
  In (failing_step env c) [Makedirs; OpenDummy; WriteDummy] ->
  fst (run env c) = inl (NameError "tar_file_name") /\
  stdout (snd (run env c)) =
    stdout (snd (before_cleanup env c))
    ++ ["An error occurred: " ++ exn_str e; cleanup_line]%string /\
  ~ In RemoveTar (trace (snd (run env c))) /\
  ~ terminates_normally env c.
Proof.
  intros Hr Hk.
  pose proof (early_failure_unbound c e Hr Hk) as Hv.
  destruct (finally_unbound env _ Hv) as (Hout & (cl & Ht & Hc & _) & _).
  rewrite <- run_eq in Hout, Ht.
  split; [exact Hout|]. split; [|split].
  - rewrite run_stdout, entering_stdout. unfold raised in Hr. rewrite Hr.
    rewrite <- app_assoc. reflexivity.
  - rewrite Ht, entering_trace. intros Hin.
    apply in_app_or in Hin. destruct Hin as [Hin|Hin].
    + destruct (raised_trace env c e Hr) as (pre & post & Htr & Hhp & _ & _).
      rewrite Htr in Hin. enum_prefix Hhp.
      all: simpl in Hin; intuition discriminate.
    + destruct Hc as [-> | ->]; simpl in Hin; intuition discriminate.
  - unfold terminates_normally. rewrite Hout. discriminate.
Qed.

(** C5 (amended).  Whenever the [try] suite raises, the exception is caught:
    the line [An error occurred: <message>] is printed, followed by the
    clean-up line, and the [finally] suite starts, running [rm -rf] when
    the scratch directory exists.  When the failure came after
    [tar_file_name] was assigned, the process terminates normally unless
    [os.remove] itself raises, which nothing catches; it does terminate
    normally when the working directory is writable, no directory sits at
    the tar path and [os.remove] meets no I/O error. *)
Theorem C5_caught_reported_then_cleanup (c : node) (e : exn) :
  raised env c e ->
  stdout (snd (run env c)) =
    stdout (snd (before_cleanup env c))
    ++ ["An error occurred: " ++ exn_str e; cleanup_line]%string /\
  In CleanupStart (trace (snd (run env c))) /\
  (exists_at (cwd (snd (before_cleanup env c))) [TEMP_DIR] = true ->
   In RmRf (trace (snd (run env c)))) /\
  (In TarOpen (trace (snd (before_cleanup env c))) ->
   (terminates_normally env c \/
    exists e', fst (run env c) = inl e' /\
               last (trace (snd (run env c))) Makedirs = RemoveTar) /\
   (is_writable_dir c = true ->
    is_dir (child (tar_name env) c) = false ->
    faults env RemoveTar = None ->
    terminates_normally env c)).
Proof.
  intros Hr.
  destruct (run_trace env c) as (cl & Ht & Hi & Hrm & Hx & Hl).
  split; [|split; [|split]].
  - rewrite run_stdout, entering_stdout. unfold raised in Hr. rewrite Hr.
    rewrite <- app_assoc. reflexivity.
  - rewrite Ht. apply in_or_app. right. left. reflexivity.
  - intros Hy. rewrite Ht. apply in_or_app. right. right. auto.
  - intros Hopen. split.
    + unfold terminates_normally.
      destruct (fst (run env c)) as [e'|[]] eqn:E; [right|left; reflexivity].
      exists e'. split; [reflexivity|].
      specialize (Hl Hopen e' eq_refl). rewrite Ht.
      destruct cl as [|x cl']; [discriminate Hl|].
      rewrite last_app_cons.
      change (last (CleanupStart :: x :: cl') Makedirs)
        with (last (x :: cl') Makedirs).
      rewrite (last_cons_default x cl' Makedirs CleanupStart). exact Hl.
    + intros Hw Hd Hf. unfold terminates_normally. rewrite run_eq.
      apply finally_ok.
      * rewrite entering_var. apply (try_var env c).
        apply existsb_step_In. exact Hopen.
      * rewrite entering_cwd, try_keeps_writable. exact Hw.
      * rewrite entering_cwd. apply try_tar_not_dir. exact Hd.
      * exact Hf.
Qed.

Lemma scratch_tree_removable (c : node) :
  match child TEMP_DIR c with
  | Some n => removable n = true
  | None => True
  end ->
  removable (scratch_tree c) = true.
Proof.
  unfold scratch_tree. destruct (child TEMP_DIR c) as [[d|w es]|]; intros H;
    try reflexivity.
  assert (Hw : w = true) by (simpl in H; apply andb_true_iff in H; tauto).
  subst w. apply removable_entries_replace. exact H.
Qed.

Lemma succeeded_bound (c : node) :
  succeeded env c ->
  var_tar_file_name (entering_finally env c) = Some (tar_name env).
Proof.
  intros Hs. rewrite entering_var. apply (try_var env c).
  rewrite (succeeded_trace env c Hs). reflexivity.
Qed.

(** C4 (amended).  In every run the [finally] suite starts and runs
    [rm -rf] on the scratch directory when it exists; when the run got as
    far as [tarfile.open] it also calls [os.remove] on the intermediate tar
    file when that exists; it never changes the compressed output file.
    After a successful run both removals are attempted; the intermediate
    tar file is gone when the process terminated normally, and the scratch
    directory is gone when the working directory is writable and every
    directory of a scratch tree left over from before the run is writable
    too ([rm]'s exit status is discarded, so what it cannot delete
    stays). *)
Theorem C4_cleanup_scope (c : node) :
  In CleanupStart (trace (snd (run env c))) /\
  (exists_at (cwd (snd (before_cleanup env c))) [TEMP_DIR] = true ->
   In RmRf (trace (snd (run env c)))) /\
  (In TarOpen (trace (snd (before_cleanup env c))) ->
   exists_at (cwd (snd (before_cleanup env c))) [tar_name env] = true ->
   In RemoveTar (trace (snd (run env c)))) /\
  child (zst_name env) (cwd (snd (run env c))) =
    child (zst_name env) (cwd (snd (before_cleanup env c))) /\
  (succeeded env c ->
   In RmRf (trace (snd (run env c))) /\
   In RemoveTar (trace (snd (run env c))) /\
   (terminates_normally env c ->
    child (tar_name env) (cwd (snd (run env c))) = None) /\
   (is_writable_dir c = true ->
    match child TEMP_DIR c with
    | Some n => removable n = true
    | None => True
    end ->
    child TEMP_DIR (cwd (snd (run env c))) = None)).
Proof.
  destruct (run_trace env c) as (cl & Ht & Hi & Hrm & Hx & Hl).
  assert (Hcl : forall s, In s cl -> In s (trace (snd (run env c)))).
  { intros s Hs. rewrite Ht. apply in_or_app. right. right. exact Hs. }
  split; [|split; [|split; [|split]]].
  - rewrite Ht. apply in_or_app. right. left. reflexivity.
  - intros Hy. auto.
  - intros Hopen Hy. auto.
  - apply run_keeps_zst.
  - intros Hs.
    destruct (try_success env c Hs) as (Htemp & Htar & Hzst & Hout).
    pose proof (succeeded_trace env c Hs) as Htrace.
    pose proof (succeeded_bound c Hs) as Hv.
    split; [|split; [|split]].
    + apply Hcl, Hrm. rewrite exists_at_child, Htemp. reflexivity.
    + apply Hcl, Hx.
      * rewrite Htrace. simpl. tauto.
      * rewrite exists_at_child, Htar. reflexivity.
    + unfold terminates_normally. rewrite run_eq.
      destruct (finally_bound env _ Hv) as (_ & Hgone & _). exact Hgone.
    + intros Hw Hrem. rewrite run_eq.
      pose proof (try_keeps_writable env c) as Hkeep. rewrite Hw in Hkeep.
      rewrite <- entering_cwd in Hkeep, Htemp.
      destruct (cwd (entering_finally env c)) as [d|w es] eqn:Ec;
        [discriminate Hkeep|].
      simpl in Hkeep. subst w.
      apply (finally_scratch_removed env _ es (scratch_tree c)).
      * exact Ec.
      * rewrite Ec. exact Htemp.
      * apply scratch_tree_removable. exact Hrem.
      * right. exact Hv.
Qed.

(** C7.  When a step of the [try] suite raises, the steps the run started
    are the happy path up to that step followed by clean-up steps only: no
    later step of the happy path runs, in particular not the printing of
    the results; the tar file and the compressed file are left as they were
    when the run stopped before the step that opens them; and the [finally]
    suite still starts, runs [rm -rf] on the scratch directory when it
    exists and, when the run had reached [tarfile.open], calls [os.remove]
    on the tar file when that exists. *)
Theorem C7_failure_stops_the_happy_path (c : node) (e : exn) :
  raised env c e ->
  exists pre post cl,
    happy_path = pre ++ post /\ pre <> [] /\ post <> [] /\
    last pre Makedirs = failing_step env c /\
    trace (snd (run env c)) = pre ++ CleanupStart :: cl /\
    incl cl [RmRf; RemoveTar] /\
    (forall s, In s post -> ~ In s (trace (snd (run env c)))) /\
    In PrintResults post /\
    (In TarOpen post ->
     child (tar_name env) (cwd (snd (run env c))) = child (tar_name env) c) /\
    (In OpenZstWrite post ->
     child (zst_name env) (cwd (snd (run env c))) = child (zst_name env) c) /\
    (exists_at (cwd (snd (before_cleanup env c))) [TEMP_DIR] = true ->
     In RmRf cl) /\
    (In TarOpen pre ->
     exists_at (cwd (snd (before_cleanup env c))) [tar_name env] = true ->
     In RemoveTar cl).
Proof.
  intros Hr.
  destruct (raised_trace env c e Hr) as (pre & post & Htr & Hhp & Hpre & Hpost).
  destruct (run_trace env c) as (cl & Ht & Hi & Hrm & Hx & Hl).
  rewrite Htr in Ht.
  exists pre, post, cl.
  split; [exact Hhp|]. split; [exact Hpre|]. split; [exact Hpost|].
  split; [unfold failing_step; rewrite Htr; reflexivity|].
  split; [exact Ht|]. split; [exact Hi|].
  split; [|split; [|split; [|split; [|split]]]].
  - intros s Hs Hin. rewrite Ht in Hin.
    destruct (later_steps_fresh pre post s Hhp Hs) as [Hnp Hnc].
    apply in_app_or in Hin. destruct Hin as [Hin|Hin]; [tauto|].
    apply Hnc. destruct Hin as [Hin|Hin]; [left; exact Hin|].
    right. apply Hi. exact Hin.
  - apply post_ends_with_print with (pre := pre); assumption.
  - intros Hin.
    destruct (later_steps_fresh pre post TarOpen Hhp Hin) as [Hnp _].
    rewrite <- Htr in Hnp. apply existsb_step_not_In in Hnp.
    rewrite <- (try_tar_frame env c Hnp).
    pose proof (proj2 (try_var env c) Hnp) as Hv.
    rewrite <- entering_var in Hv.
    destruct (finally_unbound env _ Hv) as (_ & _ & Hfr).
    rewrite run_eq, <- entering_cwd. apply Hfr.
    exact (not_eq_sym (temp_neq_tar env)).
  - intros Hin.
    destruct (later_steps_fresh pre post OpenZstWrite Hhp Hin) as [Hnp _].
    rewrite <- Htr in Hnp. apply existsb_step_not_In in Hnp.
    rewrite <- (try_zst_frame env c Hnp). apply run_keeps_zst.
  - exact Hrm.
  - rewrite <- Htr. exact Hx.
Qed.

(** C8 (amended).  When [temp_nginx] already exists as a directory,
    [os.makedirs(TEMP_DIR, exist_ok=True)] succeeds and leaves the file
    system as it was; barring an I/O error injected at that call, the run
    goes on to open the placeholder file.  Whether the placeholder is
    written depends on the directory found.  If [README.txt] can be created
    or rewritten in it (it is a regular file there, or is absent and the
    directory is writable) and no I/O error is injected at the [open] and
    the [write], the file is written: after the [try] suite
    [temp_nginx/README.txt] holds exactly the two fixed lines, next to what
    the directory held before, and the progress line is printed.
    Otherwise the [open] raises, nothing is written and the working
    directory is as it was when clean-up starts. *)
Theorem C8_existing_scratch_receives_placeholder
  (c : node) (w : bool) (es : entries_t) :
  child TEMP_DIR c = Some (Dir w es) ->
  makedirs TEMP_DIR c (split_slash TEMP_DIR) = inr c /\
  (faults env Makedirs = None ->
   (In OpenDummy (trace (snd (before_cleanup env c))) /\
    In OpenDummy (trace (snd (run env c)))) /\
   (scratch_usable c = true ->
    faults env OpenDummy = None ->
    faults env WriteDummy = None ->
    In WriteDummy (trace (snd (run env c))) /\
    child TEMP_DIR (cwd (snd (before_cleanup env c))) =
      Some (Dir w (replace DUMMY_FILE_NAME (File README_BYTES) es)) /\
    resolve (cwd (snd (before_cleanup env c))) [TEMP_DIR; DUMMY_FILE_NAME] =
      Some (File README_BYTES) /\
    In "Created dummy file: temp_nginx/README.txt"%string
       (stdout (snd (run env c)))) /\
   (scratch_usable c = false ->
    (exists e, raised env c e) /\
    failing_step env c = OpenDummy /\
    ~ In WriteDummy (trace (snd (run env c))) /\
    cwd (snd (before_cleanup env c)) = c)).
Proof.
  intros Hc. split.
  - exact (makedirs_existing TEMP_DIR TEMP_DIR c w es Hc).
  - intros Hf. destruct (run_trace env c) as (cl & Ht & Hcl & _).
    split; [|split].
    + pose proof (try_reaches_open env c w es Hc Hf) as Hopen.
      apply existsb_step_In in Hopen. split; [exact Hopen|].
      rewrite Ht. apply in_or_app. left. exact Hopen.
    + intros Hu Hf2 Hf3.
      destruct (try_writes_placeholder env c w es Hc Hf Hf2 Hf3 Hu)
        as (Hwr & Htree & Hout).
      apply existsb_step_In in Hwr.
      split; [rewrite Ht; apply in_or_app; left; exact Hwr|].
      split; [exact Htree|]. split.
      * cbn [resolve]. rewrite Htree. cbn [child].
        rewrite lookup_replace_same. reflexivity.
      * rewrite run_stdout, entering_stdout. apply in_or_app. left.
        change ("Created dummy file: temp_nginx/README.txt"%string)
          with ("Created dummy file: "
                ++ os_path_join TEMP_DIR DUMMY_FILE_NAME)%string.
        destruct (fst (before_cleanup env c)) as [e|u];
          [apply in_or_app; left|]; exact Hout.
    + intros Hu.
      destruct (try_placeholder_blocked env c w es Hc Hf Hu)
        as (Hex & Htr & Hcwd).
      split; [exact Hex|]. split; [unfold failing_step; rewrite Htr;
                                   reflexivity|].
      split; [|exact Hcwd].
      rewrite Ht, Htr. intros Hin. apply in_app_or in Hin.
      destruct Hin as [Hin|Hin].
      * cbn [In] in Hin. destruct Hin as [Hin|[Hin|[]]]; discriminate Hin.
      * destruct Hin as [Hin|Hin]; [discriminate Hin|].
        apply Hcl in Hin. cbn [In] in Hin.
        destruct Hin as [Hin|[Hin|[]]]; discriminate Hin.
Qed.

Lemma hex_of_byte_lower (b : byte) : all_lower_hex (hex_of_byte b) = true.
Proof. destruct b; reflexivity. Qed.

Lemma all_lower_hex_app (a b : string) :
  all_lower_hex (a ++ b) = all_lower_hex a && all_lower_hex b.
Proof.
  induction a as [|x r IH]; simpl.
  - reflexivity.
  - rewrite IH, andb_assoc. reflexivity.
Qed.

Lemma hexlify_lower (bs : list byte) : all_lower_hex (hexlify bs) = true.
Proof.
  induction bs as [|b r IH]; cbn [hexlify].
  - reflexivity.
  - rewrite all_lower_hex_app, hex_of_byte_lower, IH. reflexivity.
Qed.

Lemma succeeded_output (c : node) :
  succeeded env c ->
  child (zst_name env) (cwd (snd (run env c))) =
  Some (File (zstd_compress
                (tar_serialize (tar_add (scratch_tree c) TEMP_DIR)))).
Proof.
  intros Hs. rewrite run_keeps_zst.
  destruct (try_success env c Hs) as (_ & _ & Hzst & _). exact Hzst.
Qed.

Lemma succeeded_unpack (c : node) :
  succeeded env c ->
  unpack (cwd (snd (run env c))) (zst_name env) =
  Some (extractall (tar_add (scratch_tree c) TEMP_DIR)).
Proof.
  intros Hs. unfold unpack.
  rewrite (succeeded_output c Hs), zstd_roundtrip, tar_roundtrip.
  reflexivity.
Qed.

Lemma succeeded_stdout (c : node) :
  succeeded env c ->
  stdout (snd (run env c)) =
  results_stdout env
    (hexlify (sha256 (zstd_compress
       (tar_serialize (tar_add (scratch_tree c) TEMP_DIR)))))
  ++ [cleanup_line].
Proof.
  intros Hs. destruct (try_success env c Hs) as (_ & _ & _ & Hout).
  rewrite run_stdout, entering_stdout. unfold succeeded in Hs.
  rewrite Hs, Hout. reflexivity.
Qed.

(** C2.  After a successful run the retained [.tar.zst] file holds the
    complete compressed archive; the results block prints the lowercase
    hexadecimal SHA-256 digest of exactly these bytes; and the file was
    read and hashed right after the [with] block had flushed and closed the
    compressor's output, not before. *)
Theorem C2_checksum_is_digest_of_retained_file (c : node) :
  succeeded env c ->
  exists z,
    child (zst_name env) (cwd (snd (run env c))) = Some (File z) /\
    z = zstd_compress (tar_serialize (tar_add (scratch_tree c) TEMP_DIR)) /\
    stdout (snd (run env c)) =
      results_stdout env (hexlify (sha256 z)) ++ [cleanup_line] /\
    In ("Checksum: " ++ hexlify (sha256 z))%string (stdout (snd (run env c))) /\
    all_lower_hex (hexlify (sha256 z)) = true /\
    exists a b,
      trace (snd (run env c)) =
        a ++ CopyStream :: CloseZst :: ReadZst :: Hash :: b /\
      ~ In ReadZst a /\ ~ In Hash a.
Proof.
  intros Hs. eexists. split; [exact (succeeded_output c Hs)|].
  split; [reflexivity|].
  pose proof (succeeded_stdout c Hs) as Hstd.
  split; [exact Hstd|]. split; [|split].
  - rewrite Hstd. unfold results_stdout. simpl. tauto.
  - apply hexlify_lower.
  - destruct (run_trace env c) as (cl & Ht & _).
    rewrite (succeeded_trace env c Hs) in Ht.
    exists [Makedirs; OpenDummy; WriteDummy; TarOpen; TarAdd; OpenTarRead;
            OpenZstWrite], (PrintResults :: CleanupStart :: cl).
    split; [exact Ht|]. split; simpl; intuition discriminate.
Qed.

(** C3 (amended).  After a successful run that started without a scratch
    directory, decompressing the retained file and extracting the archive
    gives one top-level directory [temp_nginx] (the base name of the
    scratch directory) holding the single file [README.txt] with exactly
    the two fixed lines. *)
Theorem C3_fresh_scratch_extracts_to_single_readme (c : node) :
  child TEMP_DIR c = None ->
  succeeded env c ->
  unpack (cwd (snd (run env c))) (zst_name env) =
    Some (Dir true [(os_path_basename TEMP_DIR,
                     Dir true [(DUMMY_FILE_NAME,
                                File (list_byte_of_string README_LINE_1
                                      ++ list_byte_of_string README_LINE_2))])])
  /\ option_map is_single_readme
       (unpack (cwd (snd (run env c))) (zst_name env)) = Some true.
Proof.
  intros Hc Hs. rewrite (succeeded_unpack c Hs).
  unfold scratch_tree. rewrite Hc. split; vm_compute; reflexivity.
Qed.

Lemma two_distinct_length {A : Type} (x y : A) (l : list A) :
  In x l -> In y l -> x <> y -> 2 <= List.length l.
Proof.
  destruct l as [|a [|b r]]; simpl; intros Hx Hy Hne.
  - contradiction.
  - destruct Hx as [Hx|[]], Hy as [Hy|[]]. congruence.
  - lia.
Qed.

Lemma resolve_replace_other (w : bool) (es : entries_t) (k : string)
  (n : node) (p : list string) :
  hd_error p <> Some k ->
  p <> [] ->
  resolve (Dir w (replace k n es)) p = resolve (Dir w es) p.
Proof.
  destruct p as [|h rest]; intros Hh Hp; [congruence|].
  simpl. rewrite lookup_replace_other; [reflexivity|].
  intros ->. apply Hh. reflexivity.
Qed.

(** C9.  The archive of a successful run is the archive of the scratch tree
    as the run found it, with [README.txt] (re)written.  Started without a
    scratch directory, its only file member is [temp_nginx/README.txt].
    Started with one, every regular file already below it, at any depth and
    other than [README.txt] itself, is a member next to
    [temp_nginx/README.txt]; one such file directly in the directory is
    enough for the archive to hold at least two files. *)
Theorem C9_leftover_files_are_archived (c : node) :
  succeeded env c ->
  exists z t ms,
    child (zst_name env) (cwd (snd (run env c))) = Some (File z) /\
    zstd_decompress z = Some t /\ tar_parse t = Some ms /\
    ms = tar_add (scratch_tree c) (os_path_basename TEMP_DIR) /\
    In (os_path_join TEMP_DIR DUMMY_FILE_NAME, MFile README_BYTES) ms /\
    (child TEMP_DIR c = None ->
     file_members ms =
       [(os_path_join TEMP_DIR DUMMY_FILE_NAME, MFile README_BYTES)]) /\
    (forall w0 es0, child TEMP_DIR c = Some (Dir w0 es0) ->
       (forall p d, resolve (Dir w0 es0) p = Some (File d) ->
                    hd_error p <> Some DUMMY_FILE_NAME ->
                    In (member_name TEMP_DIR p, MFile d) ms) /\
       (forall k d, lookup k es0 = Some (File d) -> k <> DUMMY_FILE_NAME ->
                    2 <= List.length (file_members ms))).
Proof.
  intros Hs. do 3 eexists.
  split; [exact (succeeded_output c Hs)|].
  split; [apply zstd_roundtrip|]. split; [apply tar_roundtrip|].
  split; [reflexivity|].
  assert (Hreadme :
    In (os_path_join TEMP_DIR DUMMY_FILE_NAME, MFile README_BYTES)
       (tar_add (scratch_tree c) TEMP_DIR)).
  { apply (tar_add_resolve [DUMMY_FILE_NAME]).
    unfold scratch_tree.
    destruct (child TEMP_DIR c) as [[d|w es]|]; simpl;
      try rewrite lookup_replace_same; reflexivity. }
  split; [exact Hreadme|]. split.
  - intros Hc. unfold scratch_tree. rewrite Hc. reflexivity.
  - intros w0 es0 Hc.
    assert (Hdeep : forall p d, resolve (Dir w0 es0) p = Some (File d) ->
              hd_error p <> Some DUMMY_FILE_NAME ->
              In (member_name TEMP_DIR p, MFile d)
                 (tar_add (scratch_tree c) TEMP_DIR)).
    { intros p d Hres Hhd. apply tar_add_resolve.
      unfold scratch_tree. rewrite Hc.
      rewrite resolve_replace_other; [exact Hres | exact Hhd |].
      intros ->. discriminate Hres. }
    split; [exact Hdeep|].
    intros k d Hk Hne.
    apply (two_distinct_length
             (os_path_join TEMP_DIR DUMMY_FILE_NAME, MFile README_BYTES)
             (member_name TEMP_DIR [k], MFile d)).
    + apply filter_In. split; [exact Hreadme | reflexivity].
    + apply filter_In. split; [|reflexivity].
      apply Hdeep.
      * simpl. rewrite Hk. reflexivity.
      * simpl. congruence.
    + intros Heq. apply Hne. inversion Heq. reflexivity.
Qed.

(** C6.  With a valid clock reading whose year has four digits (as every
    reading of a running system's clock has: [%Y] is not padded, so an
    earlier year would give fewer digits), the name of the retained file is
    [nginx-] followed by the fourteen digits of the start-up time formatted
    as YYYYMMDDHHMMSS and by [.tar.zst]; it matches
    [nginx-\d{14}\.tar\.zst]; it is the name printed in the results block;
    and after a successful run a file of that name exists in the working
    directory. *)
Theorem C6_output_name_and_existence (c : node) :
  valid_datetime (now env) = true ->
  four_digit_year (now env) = true ->
  succeeded env c ->
  zst_name env = ("nginx-" ++ strftime_YmdHMS (now env) ++ ".tar.zst")%string /\
  String.length (strftime_YmdHMS (now env)) = 14 /\
  all_digits (strftime_YmdHMS (now env)) = true /\
  matches_output_pattern (zst_name env) = true /\
  In ("File created: " ++ zst_name env)%string (stdout (snd (run env c))) /\
  exists z, child (zst_name env) (cwd (snd (run env c))) = Some (File z) /\
            exists_at (cwd (snd (run env c))) (split_slash (zst_name env)) = true.
Proof.
  intros Hv Hy Hs.
  split.
  { unfold zst_name, tar_name, PACKAGE_VERSION, PACKAGE_NAME.
    rewrite !string_app_assoc. reflexivity. }
  split; [apply version_length; assumption|].
  split; [apply version_all_digits|].
  split; [apply zst_matches_pattern; assumption|].
  split.
  - rewrite (succeeded_stdout c Hs). unfold results_stdout. simpl. tauto.
  - eexists. split; [exact (succeeded_output c Hs)|].
    rewrite split_zst_name, exists_at_child, (succeeded_output c Hs).
    reflexivity.
Qed.

(** C10.  When the [try] suite raises in [copy_stream], while the output
    is flushed and closed, or later while the file is read back and hashed,
    the compressed file is still in the working directory after the run,
    holding whatever prefix of the compressed archive had been written: the
    [finally] suite, which did run, does not remove it. *)
Theorem C10_partial_output_is_left_behind (c : node) (e : exn) :
  raised env c e ->
  In (failing_step env c) [CopyStream; CloseZst; ReadZst; Hash] ->
  In CleanupStart (trace (snd (run env c))) /\
  exists k,
    child (zst_name env) (cwd (snd (run env c))) =
    Some (File (firstn k (zstd_compress
                  (tar_serialize (tar_add (scratch_tree c) TEMP_DIR))))).
Proof.
  intros Hr Hk.
  destruct (raised_trace env c e Hr) as (pre & post & Htr & Hhp & _ & _).
  unfold failing_step in Hk. rewrite Htr in Hk.
  pose proof (late_prefix pre post Hhp Hk) as Hcopy.
  rewrite <- Htr in Hcopy. apply existsb_step_In in Hcopy.
  destruct (try_zst_written env c Hcopy) as [k Hz].
  split.
  - destruct (run_trace env c) as (cl & Ht & _).
    rewrite Ht. apply in_or_app. right. left. reflexivity.
  - exists k. rewrite run_keeps_zst. exact Hz.
Qed.

End Claims.

(** * Concrete runs: witnesses and counterexamples

    All of them are evaluated with the reference libraries. *)

Lemma C1_witness_read_only_cwd :
  raised (L := stored_libs) env0 read_only_cwd (PermissionError TEMP_DIR) /\
  In (failing_step (L := stored_libs) env0 read_only_cwd)
     [Makedirs; OpenDummy; WriteDummy] /\
  fst (run (L := stored_libs) env0 read_only_cwd) =
    inl (NameError "tar_file_name") /\
  stdout (snd (run (L := stored_libs) env0 read_only_cwd)) =
    [ "Creating temporary directory: temp_nginx";
      "An error occurred: [Errno 13] Permission denied: 'temp_nginx'";
      cleanup_line ]%string.
Proof.
  assert (H1 : raised (L := stored_libs) env0 read_only_cwd
                 (PermissionError TEMP_DIR)) by (vm_compute; reflexivity).
  assert (H2 : In (failing_step (L := stored_libs) env0 read_only_cwd)
                 [Makedirs; OpenDummy; WriteDummy])
    by (vm_compute; left; reflexivity).
  split; [exact H1|]. split; [exact H2|].
  destruct (C1_early_failure_ends_in_NameError (L := stored_libs)
              env0 read_only_cwd (PermissionError TEMP_DIR) H1 H2)
    as (Hout & Hstd & _).
  split; [exact Hout | exact Hstd].
Defined.

Lemma C2_witness_empty_cwd :
  succeeded (L := stored_libs) env0 empty_cwd /\
  exists z,
    child (zst_name env0) (cwd (snd (run (L := stored_libs) env0 empty_cwd)))
      = Some (File z) /\
    In ("Checksum: " ++ hexlify (additive_digest z))%string
       (stdout (snd (run (L := stored_libs) env0 empty_cwd))).
Proof.
  assert (H : succeeded (L := stored_libs) env0 empty_cwd)
    by (vm_compute; reflexivity).
  split; [exact H|].
  destruct (C2_checksum_is_digest_of_retained_file (L := stored_libs)
              env0 empty_cwd H) as (z & Hz & _ & _ & Hin & _).
  exists z. split; [exact Hz | exact Hin].
Defined.

(** C3, as stated, fails: a file left in [temp_nginx] by an earlier run
    ends up in the archive next to [README.txt]. *)
Lemma C3_counterexample_leftover_file :
  succeeded (L := stored_libs) env0 cwd_with_old_file /\
  unpack (L := stored_libs)
    (cwd (snd (run (L := stored_libs) env0 cwd_with_old_file)))
    (zst_name env0) =
    Some (Dir true [(TEMP_DIR,
                     Dir true [(DUMMY_FILE_NAME, File README_BYTES);
                               ("old.txt", File [x41])])]) /\
  option_map is_single_readme
    (unpack (L := stored_libs)
       (cwd (snd (run (L := stored_libs) env0 cwd_with_old_file)))
       (zst_name env0)) = Some false.
Proof.
  split; [vm_compute; reflexivity|].
  split; vm_compute; reflexivity.
Qed.

Lemma C3_witness_empty_cwd :
  child TEMP_DIR empty_cwd = None /\
  succeeded (L := stored_libs) env0 empty_cwd /\
  option_map is_single_readme
    (unpack (L := stored_libs)
       (cwd (snd (run (L := stored_libs) env0 empty_cwd))) (zst_name env0))
  = Some true.
Proof.
  assert (H1 : child TEMP_DIR empty_cwd = None) by reflexivity.
  assert (H2 : succeeded (L := stored_libs) env0 empty_cwd)
    by (vm_compute; reflexivity).
  split; [exact H1|]. split; [exact H2|].
  exact (proj2 (C3_fresh_scratch_extracts_to_single_readme
                  (L := stored_libs) env0 empty_cwd H1 H2)).
Defined.

(** C4, as stated, fails: the run succeeds and terminates normally, yet the
    scratch directory is still there, because [rm] could not empty a
    read-only subdirectory and its exit status is ignored. *)
Lemma C4_counterexample_locked_subdir :
  succeeded (L := stored_libs) env0 cwd_with_locked_subdir /\
  terminates_normally (L := stored_libs) env0 cwd_with_locked_subdir /\
  In RmRf (trace (snd (run (L := stored_libs) env0 cwd_with_locked_subdir))) /\
  child TEMP_DIR (cwd (snd (run (L := stored_libs) env0 cwd_with_locked_subdir)))
    = Some (Dir true [("keep", Dir false [("x", File [])])]) /\
  exists_at (cwd (snd (run (L := stored_libs) env0 cwd_with_locked_subdir)))
    (split_slash TEMP_DIR) = true.
Proof.
  split; [vm_compute; reflexivity|].
  split; [vm_compute; reflexivity|].
  split; [vm_compute; tauto|].
  split; vm_compute; reflexivity.
Qed.

(** C5, as stated, fails: [tarfile.open] raises because a directory sits at
    the tar path, the exception is caught and reported, and then
    [os.remove] raises on the same directory; nothing catches that. *)
Lemma C5_counterexample_dir_at_tar_path :
  raised (L := stored_libs) env0 cwd_with_dir_at_tar
    (IsADirectoryError "nginx-20261103105907.tar") /\
  failing_step (L := stored_libs) env0 cwd_with_dir_at_tar = TarOpen /\
  fst (run (L := stored_libs) env0 cwd_with_dir_at_tar) =
    inl (IsADirectoryError "nginx-20261103105907.tar") /\
  last (trace (snd (run (L := stored_libs) env0 cwd_with_dir_at_tar)))
       Makedirs = RemoveTar /\
  ~ terminates_normally (L := stored_libs) env0 cwd_with_dir_at_tar.
Proof.
  split; [vm_compute; reflexivity|].
  split; [vm_compute; reflexivity|].
  split; [vm_compute; reflexivity|].
  split; [vm_compute; reflexivity|].
  unfold terminates_normally. vm_compute. discriminate.
Qed.

Lemma C5_witness_disk_full :
  raised (L := stored_libs) env_disk_full empty_cwd
    (Exn "OSError" "[Errno 28] No space left on device") /\
  In ("An error occurred: [Errno 28] No space left on device")%string
     (stdout (snd (run (L := stored_libs) env_disk_full empty_cwd))) /\
  terminates_normally (L := stored_libs) env_disk_full empty_cwd.
Proof.
  assert (H : raised (L := stored_libs) env_disk_full empty_cwd
                (Exn "OSError" "[Errno 28] No space left on device"))
    by (vm_compute; reflexivity).
  split; [exact H|].
  destruct (C5_caught_reported_then_cleanup (L := stored_libs)
              env_disk_full empty_cwd _ H) as (Hstd & _ & _ & Hafter).
  split.
  - rewrite Hstd. apply in_or_app. right. left. reflexivity.
  - apply Hafter; [vm_compute; tauto | reflexivity | vm_compute; reflexivity
                  | reflexivity].
Defined.

Lemma C6_witness_empty_cwd :
  valid_datetime (now env0) = true /\
  four_digit_year (now env0) = true /\
  succeeded (L := stored_libs) env0 empty_cwd /\
  zst_name env0 = "nginx-20261103105907.tar.zst" /\
  matches_output_pattern (zst_name env0) = true /\
  exists z, child (zst_name env0)
              (cwd (snd (run (L := stored_libs) env0 empty_cwd)))
            = Some (File z).
Proof.
  assert (H1 : valid_datetime (now env0) = true) by (vm_compute; reflexivity).
  assert (Hy : four_digit_year (now env0) = true)
    by (vm_compute; reflexivity).
  assert (H2 : succeeded (L := stored_libs) env0 empty_cwd)
    by (vm_compute; reflexivity).
  split; [exact H1|]. split; [exact Hy|]. split; [exact H2|].
  destruct (C6_output_name_and_existence (L := stored_libs)
              env0 empty_cwd H1 Hy H2) as (_ & _ & _ & Hm & _ & z & Hz & _).
  split; [vm_compute; reflexivity|]. split; [exact Hm|].
  exists z. exact Hz.
Defined.

Lemma C7_witness_dir_at_tar_path :
  raised (L := stored_libs) env0 cwd_with_dir_at_tar
    (IsADirectoryError "nginx-20261103105907.tar") /\
  exists pre post cl,
    happy_path = pre ++ post /\
    trace (snd (run (L := stored_libs) env0 cwd_with_dir_at_tar))
      = pre ++ CleanupStart :: cl /\
    (forall s, In s post ->
       ~ In s (trace (snd (run (L := stored_libs) env0 cwd_with_dir_at_tar)))) /\
    In PrintResults post.
Proof.
  assert (H : raised (L := stored_libs) env0 cwd_with_dir_at_tar
                (IsADirectoryError "nginx-20261103105907.tar"))
    by (vm_compute; reflexivity).
  split; [exact H|].
  destruct (C7_failure_stops_the_happy_path (L := stored_libs)
              env0 cwd_with_dir_at_tar _ H)
    as (pre & post & cl & Hhp & _ & _ & _ & Ht & _ & Hfresh & Hprint & _).
  exists pre, post, cl.
  split; [exact Hhp|]. split; [exact Ht|]. split; [exact Hfresh|].
  exact Hprint.
Defined.

(** C8, as stated, fails: with [README.txt] a directory inside the
    existing [temp_nginx], [os.makedirs] passes but the [open] raises; the
    run writes no placeholder and ends in clean-up. *)
Lemma C8_counterexample_readme_is_directory :
  child TEMP_DIR cwd_with_dir_at_readme
    = Some (Dir true [(DUMMY_FILE_NAME, Dir true [])]) /\
  makedirs TEMP_DIR cwd_with_dir_at_readme (split_slash TEMP_DIR)
    = inr cwd_with_dir_at_readme /\
  raised (L := stored_libs) env0 cwd_with_dir_at_readme
    (IsADirectoryError "temp_nginx/README.txt") /\
  trace (snd (run (L := stored_libs) env0 cwd_with_dir_at_readme))
    = [Makedirs; OpenDummy; CleanupStart; RmRf] /\
  ~ In WriteDummy
      (trace (snd (run (L := stored_libs) env0 cwd_with_dir_at_readme))) /\
  resolve (cwd (snd (before_cleanup (L := stored_libs) env0
                       cwd_with_dir_at_readme)))
          [TEMP_DIR; DUMMY_FILE_NAME] = Some (Dir true []) /\
  stdout (snd (run (L := stored_libs) env0 cwd_with_dir_at_readme))
    = [ "Creating temporary directory: temp_nginx";
        "An error occurred: [Errno 21] Is a directory: 'temp_nginx/README.txt'";
        cleanup_line ].
Proof.
  split; [vm_compute; reflexivity|].
  split; [vm_compute; reflexivity|].
  split; [vm_compute; reflexivity|].
  assert (Ht : trace (snd (run (L := stored_libs) env0
                             cwd_with_dir_at_readme))
               = [Makedirs; OpenDummy; CleanupStart; RmRf])
    by (vm_compute; reflexivity).
  split; [exact Ht|].
  split.
  { rewrite Ht. cbn [In].
    intros [H|[H|[H|[H|[]]]]]; discriminate H. }
  split; [vm_compute; reflexivity|].
  vm_compute; reflexivity.
Qed.

(** The same with an existing [temp_nginx] that is read-only and has no
    [README.txt]: the [open] raises [PermissionError]. *)
Example read_only_scratch_refuses_placeholder :
  makedirs TEMP_DIR cwd_with_read_only_scratch (split_slash TEMP_DIR)
    = inr cwd_with_read_only_scratch /\
  raised (L := stored_libs) env0 cwd_with_read_only_scratch
    (PermissionError "temp_nginx/README.txt") /\
  trace (snd (run (L := stored_libs) env0 cwd_with_read_only_scratch))
    = [Makedirs; OpenDummy; CleanupStart; RmRf].
Proof.
  split; [vm_compute; reflexivity|].
  split; vm_compute; reflexivity.
Qed.

Lemma C8_witness_existing_scratch :
  child TEMP_DIR cwd_with_old_file
    = Some (Dir true [("old.txt", File [x41])]) /\
  scratch_usable cwd_with_old_file = true /\
  makedirs TEMP_DIR cwd_with_old_file (split_slash TEMP_DIR)
    = inr cwd_with_old_file /\
  In WriteDummy
     (trace (snd (run (L := stored_libs) env0 cwd_with_old_file))) /\
  child TEMP_DIR
    (cwd (snd (before_cleanup (L := stored_libs) env0 cwd_with_old_file)))
    = Some (Dir true [("old.txt", File [x41]);
                      (DUMMY_FILE_NAME, File README_BYTES)]) /\
  scratch_usable cwd_with_dir_at_readme = false /\
  ~ In WriteDummy
      (trace (snd (run (L := stored_libs) env0 cwd_with_dir_at_readme))).
Proof.
  assert (H : child TEMP_DIR cwd_with_old_file
              = Some (Dir true [("old.txt", File [x41])])) by reflexivity.
  assert (Hu : scratch_usable cwd_with_old_file = true) by reflexivity.
  assert (H' : child TEMP_DIR cwd_with_dir_at_readme
               = Some (Dir true [(DUMMY_FILE_NAME, Dir true [])]))
    by reflexivity.
  assert (Hu' : scratch_usable cwd_with_dir_at_readme = false)
    by reflexivity.
  split; [exact H|]. split; [exact Hu|].
  destruct (C8_existing_scratch_receives_placeholder (L := stored_libs)
              env0 cwd_with_old_file true _ H) as (Hmk & Hgo).
  destruct (Hgo eq_refl) as (_ & Hyes & _).
  destruct (Hyes Hu eq_refl eq_refl) as (Hwr & Htree & _).
  split; [exact Hmk|]. split; [exact Hwr|]. split; [exact Htree|].
  split; [exact Hu'|].
  destruct (C8_existing_scratch_receives_placeholder (L := stored_libs)
              env0 cwd_with_dir_at_readme true _ H') as (_ & Hgo').
  destruct (Hgo' eq_refl) as (_ & _ & Hno).
  exact (proj1 (proj2 (proj2 (Hno Hu')))).
Defined.

Lemma C9_witness_leftover_file :
  succeeded (L := stored_libs) env0 cwd_with_old_file /\
  exists z t ms,
    child (zst_name env0)
      (cwd (snd (run (L := stored_libs) env0 cwd_with_old_file)))
      = Some (File z) /\
    zstd_decompress z = Some t /\ tar_parse t = Some ms /\
    In ("temp_nginx/README.txt"%string, MFile README_BYTES) ms /\
    In ("temp_nginx/old.txt"%string, MFile [x41]) ms /\
    2 <= List.length (file_members ms).
Proof.
  assert (H : succeeded (L := stored_libs) env0 cwd_with_old_file)
    by (vm_compute; reflexivity).
  split; [exact H|].
  destruct (C9_leftover_files_are_archived (L := stored_libs)
              env0 cwd_with_old_file H)
    as (z & t & ms & Hz & Hd & Hp & _ & Hreadme & _ & Hleft).
  destruct (Hleft true [("old.txt"%string, File [x41])] eq_refl)
    as (Hdeep & Hcount).
  exists z, t, ms.
  split; [exact Hz|]. split; [exact Hd|]. split; [exact Hp|].
  split; [exact Hreadme|]. split.
  - apply (Hdeep ["old.txt"%string] [x41]); [reflexivity | discriminate].
  - apply (Hcount "old.txt"%string [x41]); [reflexivity | discriminate].
Defined.

Lemma C10_witness_disk_full :
  raised (L := stored_libs) env_disk_full cwd_with_old_file
    (Exn "OSError" "[Errno 28] No space left on device") /\
  In (failing_step (L := stored_libs) env_disk_full cwd_with_old_file)
     [CopyStream; CloseZst; ReadZst; Hash] /\
  exists k,
    child (zst_name env_disk_full)
      (cwd (snd (run (L := stored_libs) env_disk_full cwd_with_old_file)))
    = Some (File (firstn k
         (@zstd_compress stored_libs
            (@tar_serialize stored_libs
               (tar_add (scratch_tree cwd_with_old_file) TEMP_DIR))))).
Proof.
  assert (H1 : raised (L := stored_libs) env_disk_full cwd_with_old_file
                 (Exn "OSError" "[Errno 28] No space left on device"))
    by (vm_compute; reflexivity).
  assert (H2 : In (failing_step (L := stored_libs) env_disk_full
                     cwd_with_old_file)
                 [CopyStream; CloseZst; ReadZst; Hash])
    by (vm_compute; left; reflexivity).
  split; [exact H1|]. split; [exact H2|].
  exact (proj2 (C10_partial_output_is_left_behind (L := stored_libs)
                  env_disk_full cwd_with_old_file _ H1 H2)).
Defined.

(** With the disk full after five bytes, exactly those five bytes stay in
    the output file. *)
Example disk_full_leaves_five_bytes :
  child (zst_name env_disk_full)
    (cwd (snd (run (L := stored_libs) env_disk_full empty_cwd)))
  = Some (File [x02; x01; x01; x01; x01]).
Proof. vm_compute. reflexivity. Qed.

(** * Further properties of the script *)

(** ** More symbolic execution *)

Ltac script_steps env :=
  unfold before_cleanup, try_suite, os_makedirs, open_write, fs_call,
    write_call, read_call, tar_add_and_close, hexdigest_of, print, begin,
    assign_tar_file_name, bind, ret, init;
  change (split_slash TEMP_DIR) with [TEMP_DIR];
  change (split_slash (os_path_join TEMP_DIR DUMMY_FILE_NAME))
    with [TEMP_DIR; DUMMY_FILE_NAME];
  change (os_path_basename TEMP_DIR) with TEMP_DIR;
  change (PACKAGE_NAME ++ "-" ++ PACKAGE_VERSION env ++ ".tar")%string
    with (tar_name env);
  change (tar_name env ++ ".zst")%string with (zst_name env);
  rewrite ?split_tar_name, ?split_zst_name;
  cbn [fst snd cwd stdout trace var_tar_file_name set_cwd app].

Ltac finally_steps :=
  unfold finally_suite, os_path_exists, os_system_rm_rf, os_remove,
    load_tar_file_name, fs_call, print, begin, bind, ret;
  change (split_slash TEMP_DIR) with [TEMP_DIR];
  cbn [fst snd cwd stdout trace var_tar_file_name set_cwd app].

Ltac other_neq env :=
  first [ assumption
        | exact (temp_neq_tar env) | exact (temp_neq_zst env)
        | exact (tar_neq_zst env)
        | exact (not_eq_sym (temp_neq_tar env))
        | exact (not_eq_sym (temp_neq_zst env))
        | exact (not_eq_sym (tar_neq_zst env)) ].

(** Rewrite [child k n'] back along the calls that produced [n'], for a
    name [k] the calls do not address. *)
Ltac frame_back env :=
  repeat first
    [ rewrite write_at_frame by other_neq env
    | rewrite rm_rf_frame by other_neq env
    | match goal with
      | H : open_w _ ?n _ = inr ?n' |- context [child ?k ?n'] =>
          rewrite (open_w_frame _ k _ _ n n' H) by other_neq env
      | H : makedirs _ ?n _ = inr ?n' |- context [child ?k ?n'] =>
          rewrite (makedirs_frame _ k _ _ n n' H) by other_neq env
      | H : unlink _ ?n _ = inr ?n' |- context [child ?k ?n'] =>
          rewrite (unlink_frame _ k _ _ n n' H) by other_neq env
      end ].

Ltac writable_back :=
  repeat first
    [ rewrite write_at_writable by discriminate
    | rewrite rm_rf_writable
    | match goal with
      | H : open_w _ ?n _ = inr ?n' |- context [is_writable_dir ?n'] =>
          rewrite (open_w_writable _ _ n n' H)
      | H : makedirs _ ?n _ = inr ?n' |- context [is_writable_dir ?n'] =>
          rewrite (makedirs_writable _ _ n n' H)
      | H : unlink _ ?n _ = inr ?n' |- context [is_writable_dir ?n'] =>
          rewrite (unlink_writable _ _ n n' H)
      end ].

Section MoreExec.

Context {L : Libraries}.
Variable env : environment.

(** The [try] suite only ever addresses three names of the working
    directory. *)
Lemma try_other_frame (c : node) (k : string) :
  k <> TEMP_DIR -> k <> tar_name env -> k <> zst_name env ->
  child k (cwd (snd (before_cleanup env c))) = child k c.
Proof.
  intros H1 H2 H3. script_steps env. repeat exec_step.
  all: frame_back env; reflexivity.
Qed.

(** What a raising [try] suite has printed is an initial part of the
    progress lines. *)
Lemma try_progress_prefix (c : node) :
  (exists e, fst (before_cleanup env c) = inl e) ->
  exists rest, progress_lines env = stdout (snd (before_cleanup env c)) ++ rest.
Proof.
  script_steps env. repeat exec_step.
  all: intros [ex Hex]; try discriminate Hex.
  all: eexists; reflexivity.
Qed.

(** The scratch tree stays deletable through the [try] suite. *)
Lemma try_scratch_removable (c : node) :
  removable_opt (child TEMP_DIR c) ->
  removable_opt (child TEMP_DIR (cwd (snd (before_cleanup env c)))).
Proof.
  intros Hr. script_steps env. repeat exec_step.
  all: frame_back env.
  all: repeat first
    [ assumption
    | apply write_at_keeps_removable
    | match goal with
      | H : open_w _ ?n [TEMP_DIR; DUMMY_FILE_NAME] = inr ?n0
        |- removable_opt (child TEMP_DIR ?n0) =>
          apply (open_w_keeps_removable _ _ _ n n0 H)
      | H : makedirs _ ?c0 [TEMP_DIR] = inr ?n
        |- removable_opt (child TEMP_DIR ?n) =>
          apply (makedirs_keeps_removable _ _ c0 n H)
      end ].
Qed.

(** With no fault from the environment, a writable working directory, a
    usable scratch directory and no directory in the way of the two files,
    every step of the [try] suite goes through. *)
Lemma try_succeeds (c : node) :
  (forall k, faults env k = None) ->
  is_writable_dir c = true ->
  scratch_usable c = true ->
  is_dir (child (tar_name env) c) = false ->
  is_dir (child (zst_name env) c) = false ->
  fst (before_cleanup env c) = inr tt.
Proof.
  intros Hf Hw Hu Ht Hz.
  assert (Hnf : forall d, child TEMP_DIR c <> Some (File d)).
  { intros d Hd. unfold scratch_usable in Hu. rewrite Hd in Hu.
    discriminate Hu. }
  destruct (makedirs_ok TEMP_DIR TEMP_DIR c Hw Hnf) as [n Hmk].
  destruct (open_dummy_ok TEMP_DIR (os_path_join TEMP_DIR DUMMY_FILE_NAME)
              c n Hmk Hu) as [n0 Hop].
  destruct (open_w_ok (tar_name env) (tar_name env)
              (write_at n0 [TEMP_DIR; DUMMY_FILE_NAME] README_BYTES))
    as [n1 Htar].
  { writable_back. exact Hw. }
  { frame_back env. exact Ht. }
  assert (Htree : child TEMP_DIR n1 = Some (scratch_tree c)).
  { rewrite (open_w_frame _ TEMP_DIR _ _ _ _ Htar) by other_neq env.
    exact (scratch_after_write _ _ _ _ _ _ _ README_BYTES Hmk Hop). }
  pose proof (write_at_file (tar_name env) n1 []
                (tar_serialize (tar_add (scratch_tree c) TEMP_DIR))
                (open_w_creates _ _ _ _ Htar)) as Himg.
  destruct (open_w_ok (zst_name env) (zst_name env)
              (write_at n1 [tar_name env]
                 (tar_serialize (tar_add (scratch_tree c) TEMP_DIR))))
    as [n2 Hzst].
  { writable_back. exact Hw. }
  { frame_back env. exact Hz. }
  pose proof (write_at_file (zst_name env) n2 []
                (zstd_compress
                   (tar_serialize (tar_add (scratch_tree c) TEMP_DIR)))
                (open_w_creates _ _ _ _ Hzst)) as Hout.
  pose proof (write_at_file (zst_name env) _ _
                (zstd_compress
                   (tar_serialize (tar_add (scratch_tree c) TEMP_DIR)))
                Hout) as Hout2.
  script_steps env. rewrite !Hf.
  rewrite Hmk.
  cbn [fst snd cwd stdout trace var_tar_file_name set_cwd app].
  rewrite Hop.
  cbn [fst snd cwd stdout trace var_tar_file_name set_cwd app].
  rewrite Htar.
  cbn [fst snd cwd stdout trace var_tar_file_name set_cwd app].
  rewrite resolve_single, Htree.
  cbn [fst snd cwd stdout trace var_tar_file_name set_cwd app].
  rewrite (open_r_file _ _ _ _ Himg).
  cbn [fst snd cwd stdout trace var_tar_file_name set_cwd app].
  rewrite Hzst.
  cbn [fst snd cwd stdout trace var_tar_file_name set_cwd app].
  rewrite (open_r_file _ _ _ _ Hout2).
  reflexivity.
Qed.

(** When [os.makedirs] fails, the [try] suite stops there with the file
    system untouched. *)
Lemma try_stops_at_makedirs (c : node) (e : exn) :
  makedirs TEMP_DIR c [TEMP_DIR] = inl e ->
  exists e',
    before_cleanup env c =
      (inl e',
       State c ["Creating temporary directory: " ++ TEMP_DIR]%string
             [Makedirs] None) /\
    (faults env Makedirs = None -> e' = e).
Proof.
  intros Hmk. script_steps env. rewrite Hmk.
  destruct (faults env Makedirs) as [ft|].
  - eexists. split; [reflexivity|]. discriminate.
  - eexists. split; [reflexivity|]. reflexivity.
Qed.

(** The [finally] suite keeps the permission of the working directory. *)
Lemma finally_writable (st : state) :
  is_writable_dir (cwd (snd (finally_suite env st))) =
  is_writable_dir (cwd st).
Proof.
  finally_steps. repeat exec_step.
  all: writable_back; reflexivity.
Qed.

(** In a writable working directory, a scratch tree that [rm] may delete
    does not outlive the [finally] suite, bound variable or not. *)
Lemma finally_scratch_gone (st : state) :
  is_writable_dir (cwd st) = true ->
  removable_opt (child TEMP_DIR (cwd st)) ->
  var_tar_file_name st = None \/ var_tar_file_name st = Some (tar_name env) ->
  child TEMP_DIR (cwd (snd (finally_suite env st))) = None.
Proof.
  intros Hw Hr Hv.
  destruct (child TEMP_DIR (cwd st)) as [n|] eqn:Hn.
  - destruct (cwd st) as [d|w es] eqn:Ec; [discriminate Hw|].
    simpl in Hw. subst w.
    apply (finally_scratch_removed env st es n); try assumption.
    rewrite Ec. exact Hn.
  - finally_steps. rewrite exists_at_child, Hn.
    cbn [fst snd cwd stdout trace var_tar_file_name set_cwd app].
    destruct Hv as [Hv|Hv]; rewrite Hv;
      cbn [fst snd cwd stdout trace var_tar_file_name set_cwd app].
    + exact Hn.
    + rewrite split_tar_name. repeat exec_step.
      all: frame_back env; exact Hn.
Qed.

End MoreExec.

(** ** Reading the version string back *)

Lemma nat_of_digit (d : nat) : d < 10 -> nat_of_ascii (digit d) - 48 = d.
Proof.
  intros H. unfold digit. rewrite nat_ascii_embedding by lia. lia.
Qed.

Lemma value_from_decimal_fuel (f : nat) :
  forall n acc, n < f ->
  value_from 0 (decimal_fuel f n acc) = value_from n acc.
Proof.
  induction f as [|f IH]; intros n acc Hn; [lia|].
  rewrite decimal_fuel_step.
  assert (Hd : n mod 10 < 10) by (apply Nat.mod_upper_bound; discriminate).
  destruct (n / 10 =? 0)%nat eqn:E.
  - apply Nat.eqb_eq in E. cbn [value_from].
    rewrite (nat_of_digit _ Hd).
    pose proof (Nat.div_mod_eq n 10) as Hdm. rewrite E in Hdm.
    f_equal. lia.
  - apply Nat.eqb_neq in E.
    rewrite IH.
    + cbn [value_from]. rewrite (nat_of_digit _ Hd).
      pose proof (Nat.div_mod_eq n 10) as Hdm. f_equal. lia.
    + assert (Hpos : 0 < n).
      { destruct n as [|n']; [exfalso; apply E; reflexivity | lia]. }
      pose proof (Nat.div_lt n 10 Hpos ltac:(lia)). lia.
Qed.

Lemma value_from_zeros (k : nat) (s : string) :
  value_from 0 (zeros k ++ s) = value_from 0 s.
Proof. induction k as [|k IH]; [reflexivity | exact IH]. Qed.

Lemma value_from_zfill (w n : nat) : value_from 0 (zfill w (decimal n)) = n.
Proof.
  unfold zfill, decimal.
  rewrite value_from_zeros, value_from_decimal_fuel by lia. reflexivity.
Qed.

Lemma take_app_length (a b : string) (k : nat) :
  String.length a = k -> take k (a ++ b) = a.
Proof.
  revert k. induction a as [|x r IH]; intros k Hk; simpl in Hk; subst k.
  - destruct b; reflexivity.
  - simpl. rewrite IH; reflexivity.
Qed.

Lemma take_all (a : string) (k : nat) : String.length a = k -> take k a = a.
Proof.
  revert k. induction a as [|x r IH]; intros k Hk; simpl in Hk; subst k.
  - reflexivity.
  - simpl. rewrite IH; reflexivity.
Qed.

Lemma drop_app_length (a b : string) (k : nat) :
  String.length a = k -> drop k (a ++ b) = b.
Proof.
  revert k. induction a as [|x r IH]; intros k Hk; simpl in Hk; subst k.
  - destruct b; reflexivity.
  - simpl. apply IH. reflexivity.
Qed.

Lemma drop_add (j k : nat) (s : string) : drop (j + k) s = drop k (drop j s).
Proof.
  revert s. induction j as [|j IH]; intros s.
  - destruct s; reflexivity.
  - destruct s as [|x r]; simpl.
    + destruct k; reflexivity.
    + apply IH.
Qed.

Lemma value_from_decimal (n : nat) : value_from 0 (decimal n) = n.
Proof.
  unfold decimal. rewrite value_from_decimal_fuel by lia. reflexivity.
Qed.

Lemma field_width (t : datetime) :
  valid_datetime t = true ->
  String.length (zfill 2 (decimal (month t))) = 2 /\
  String.length (zfill 2 (decimal (day t))) = 2 /\
  String.length (zfill 2 (decimal (hour t))) = 2 /\
  String.length (zfill 2 (decimal (minute t))) = 2 /\
  String.length (zfill 2 (decimal (second t))) = 2.
Proof.
  unfold valid_datetime. intros H.
  repeat (apply andb_true_iff in H; destruct H as [H ?]).
  repeat match goal with
         | Hx : (_ <=? _)%nat = true |- _ => apply Nat.leb_le in Hx
         end.
  repeat split; apply zfill_length; try lia; change (10 ^ 2) with 100; lia.
Qed.

(** Reading the fields back out of the version string gives the time it
    was made from, whatever the number of digits of the year. *)
Lemma parse_strftime (t : datetime) :
  valid_datetime t = true -> parse_YmdHMS (strftime_YmdHMS t) = t.
Proof.
  intros Hv.
  destruct (field_width t Hv) as (HM & HD & Hh & Hm & Hs).
  assert (Hk : String.length (strftime_YmdHMS t) - 10
               = String.length (decimal (year t))).
  { unfold strftime_YmdHMS.
    rewrite !string_length_app, HM, HD, Hh, Hm, Hs. lia. }
  unfold parse_YmdHMS. rewrite Hk. unfold strftime_YmdHMS.
  rewrite (take_app_length _ _ _ eq_refl), (drop_app_length _ _ _ eq_refl).
  change 8 with (2 + 2 + 2 + 2). change 6 with (2 + 2 + 2).
  change 4 with (2 + 2).
  rewrite !drop_add.
  rewrite (drop_app_length _ _ 2 HM).
  rewrite (take_app_length _ _ 2 HM).
  rewrite (drop_app_length _ _ 2 HD).
  rewrite (take_app_length _ _ 2 HD).
  rewrite (drop_app_length _ _ 2 Hh).
  rewrite (take_app_length _ _ 2 Hh).
  rewrite (drop_app_length _ _ 2 Hm).
  rewrite (take_app_length _ _ 2 Hm).
  rewrite (take_all _ 2 Hs).
  rewrite value_from_decimal, !value_from_zfill. destruct t; reflexivity.
Qed.

Lemma app_inv_same_length (a b x y : string) :
  String.length a = String.length b ->
  (a ++ x = b ++ y)%string -> a = b.
Proof.
  revert b. induction a as [|c r IH]; intros b Hl H.
  - destruct b; [reflexivity | discriminate Hl].
  - destruct b as [|c' r']; [discriminate Hl|].
    simpl in Hl, H. inversion H. subst c'. f_equal.
    apply IH; [lia | assumption].
Qed.

Lemma string_app_inv_tail (a b s : string) :
  (a ++ s = b ++ s)%string -> a = b.
Proof.
  intros H. apply (app_inv_same_length a b s s); [|exact H].
  apply (f_equal String.length) in H.
  rewrite !string_length_app in H. lia.
Qed.

(** ** The properties *)

Section Extras.

Context {L : Libraries}.
Variable env : environment.

Lemma entering_var_cases (c : node) :
  var_tar_file_name (entering_finally env c) = None \/
  var_tar_file_name (entering_finally env c) = Some (tar_name env).
Proof. rewrite entering_var. apply var_cases. Qed.

(** What a clean start gives: shared by the properties below. *)
Lemma clean_run (c : node) :
  (forall k, faults env k = None) ->
  is_writable_dir c = true ->
  scratch_usable c = true ->
  is_dir (child (tar_name env) c) = false ->
  is_dir (child (zst_name env) c) = false ->
  succeeded env c /\
  terminates_normally env c /\
  child (tar_name env) (cwd (snd (run env c))) = None /\
  child (zst_name env) (cwd (snd (run env c))) =
    Some (File (zstd_compress
                  (tar_serialize (tar_add (scratch_tree c) TEMP_DIR)))) /\
  is_writable_dir (cwd (snd (run env c))) = true.
Proof.
  intros Hf Hw Hu Ht Hz.
  assert (Hs : succeeded env c) by (apply try_succeeds; assumption).
  destruct (try_success env c Hs) as (_ & Htar & _ & _).
  pose proof (succeeded_bound env c Hs) as Hv.
  assert (Hn : terminates_normally env c).
  { unfold terminates_normally. rewrite run_eq. apply finally_ok.
    - exact Hv.
    - rewrite entering_cwd, try_keeps_writable. exact Hw.
    - rewrite entering_cwd, Htar. reflexivity.
    - apply Hf. }
  split; [exact Hs|]. split; [exact Hn|]. split; [|split].
  - destruct (finally_bound env _ Hv) as (_ & Hgone & _).
    unfold terminates_normally in Hn. rewrite run_eq in Hn |- *.
    apply Hgone. exact Hn.
  - apply succeeded_output. exact Hs.
  - rewrite run_eq, finally_writable, entering_cwd, try_keeps_writable.
    exact Hw.
Qed.

(** X1.  Started in a writable working directory where [temp_nginx] is
    absent (or is a directory in which [README.txt] can be written), with
    no directory at the tar path or at the output path and no failure
    coming from the environment, the run completes: every step of the [try]
    suite succeeds, the process terminates normally, standard output is
    the progress lines, the results block and the clean-up line, the
    intermediate tar file is gone and the compressed file is there. *)
Theorem X1_clean_start_completes (c : node) :
  (forall k, faults env k = None) ->
  is_writable_dir c = true ->
  scratch_usable c = true ->
  is_dir (child (tar_name env) c) = false ->
  is_dir (child (zst_name env) c) = false ->
  succeeded env c /\
  terminates_normally env c /\
  (exists checksum,
     stdout (snd (run env c)) = results_stdout env checksum ++ [cleanup_line]) /\
  child (tar_name env) (cwd (snd (run env c))) = None /\
  exists z, child (zst_name env) (cwd (snd (run env c))) = Some (File z).
Proof.
  intros Hf Hw Hu Ht Hz.
  destruct (clean_run c Hf Hw Hu Ht Hz) as (Hs & Hn & Hgone & Hout & _).
  split; [exact Hs|]. split; [exact Hn|]. split; [|split].
  - eexists. apply succeeded_stdout. exact Hs.
  - exact Hgone.
  - eexists. exact Hout.
Qed.

(** X2.  A run, whatever its outcome, changes nothing in the working
    directory besides [temp_nginx], the tar file and the compressed file:
    every other entry is as before, and so is the write permission of the
    directory. *)
Theorem X2_other_entries_untouched (c : node) (k : string) :
  k <> TEMP_DIR -> k <> tar_name env -> k <> zst_name env ->
  child k (cwd (snd (run env c))) = child k c /\
  is_writable_dir (cwd (snd (run env c))) = is_writable_dir c.
Proof.
  intros H1 H2 H3. split.
  - rewrite <- (try_other_frame env c k H1 H2 H3), <- entering_cwd, run_eq.
    destruct (entering_var_cases c) as [Hv|Hv].
    + destruct (finally_unbound env _ Hv) as (_ & _ & Hfr). apply Hfr, H1.
    + destruct (finally_bound env _ Hv) as (_ & _ & Hfr).
      apply Hfr; assumption.
  - rewrite run_eq, finally_writable, entering_cwd. apply try_keeps_writable.
Qed.

(** X3.  A run whose [try] suite raises prints an initial part of the five
    progress lines, then the error line and the clean-up line, and nothing
    else: no [File created:] line and no [Checksum:] line. *)
Theorem X3_failed_run_prints_no_results (c : node) (e : exn) :
  raised env c e ->
  (exists rest,
     progress_lines env = stdout (snd (before_cleanup env c)) ++ rest) /\
  stdout (snd (run env c)) =
    stdout (snd (before_cleanup env c))
    ++ ["An error occurred: " ++ exn_str e; cleanup_line]%string /\
  (forall x, ~ In ("Checksum: " ++ x)%string (stdout (snd (run env c)))) /\
  (forall x, ~ In ("File created: " ++ x)%string (stdout (snd (run env c)))).
Proof.
  intros Hr.
  assert (Hpre : exists rest,
            progress_lines env = stdout (snd (before_cleanup env c)) ++ rest).
  { apply try_progress_prefix. exists e. exact Hr. }
  assert (Hstd : stdout (snd (run env c)) =
            stdout (snd (before_cleanup env c))
            ++ ["An error occurred: " ++ exn_str e; cleanup_line]%string).
  { rewrite run_stdout, entering_stdout. unfold raised in Hr. rewrite Hr.
    rewrite <- app_assoc. reflexivity. }
  split; [exact Hpre|]. split; [exact Hstd|].
  destruct Hpre as [rest Hpre].
  assert (Hno : forall line,
            In line (stdout (snd (run env c))) ->
            In line (progress_lines env) \/
            line = ("An error occurred: " ++ exn_str e)%string \/
            line = cleanup_line).
  { intros line Hin. rewrite Hstd in Hin. apply in_app_or in Hin.
    destruct Hin as [Hin|[Hin|[Hin|[]]]]; auto.
    left. rewrite Hpre. apply in_or_app. left. exact Hin. }
  split; intros x Hin; apply Hno in Hin;
    unfold progress_lines, cleanup_line, nl in Hin; simpl in Hin;
    destruct Hin as [[H|[H|[H|[H|[H|[]]]]]]|[H|H]]; discriminate H.
Qed.

(** X4.  Whatever the outcome of the run, when the working directory is
    writable and whatever sits at [temp_nginx] beforehand can be deleted by
    [rm -rf] (nothing, a regular file, or a tree of writable directories),
    no [temp_nginx] is left afterwards. *)
Theorem X4_scratch_never_left_behind (c : node) :
  is_writable_dir c = true ->
  removable_opt (child TEMP_DIR c) ->
  child TEMP_DIR (cwd (snd (run env c))) = None /\
  exists_at (cwd (snd (run env c))) (split_slash TEMP_DIR) = false.
Proof.
  intros Hw Hr.
  assert (Hgone : child TEMP_DIR (cwd (snd (run env c))) = None).
  { rewrite run_eq. apply finally_scratch_gone.
    - rewrite entering_cwd, try_keeps_writable. exact Hw.
    - rewrite entering_cwd. apply try_scratch_removable. exact Hr.
    - apply entering_var_cases. }
  split; [exact Hgone|].
  change (split_slash TEMP_DIR) with [TEMP_DIR].
  rewrite exists_at_child, Hgone. reflexivity.
Qed.

(** X5.  The intermediate tar file after a run: when the run reached
    [tarfile.open] and the process terminated normally, no entry of that
    name is left, also when the [try] suite had raised; when the run
    stopped before [tarfile.open], the entry of that name is what it was
    before the run. *)
Theorem X5_tar_file_after_the_run (c : node) :
  (In TarOpen (trace (snd (before_cleanup env c))) ->
   terminates_normally env c ->
   child (tar_name env) (cwd (snd (run env c))) = None) /\
  (~ In TarOpen (trace (snd (before_cleanup env c))) ->
   child (tar_name env) (cwd (snd (run env c))) = child (tar_name env) c).
Proof.
  split.
  - intros Hopen Hn. apply existsb_step_In in Hopen.
    pose proof (proj1 (try_var env c) Hopen) as Hv.
    rewrite <- entering_var in Hv.
    destruct (finally_bound env _ Hv) as (_ & Hgone & _).
    unfold terminates_normally in Hn. rewrite run_eq in Hn |- *.
    apply Hgone. exact Hn.
  - intros Hno. apply existsb_step_not_In in Hno.
    rewrite <- (try_tar_frame env c Hno).
    pose proof (proj2 (try_var env c) Hno) as Hv.
    rewrite <- entering_var in Hv.
    destruct (finally_unbound env _ Hv) as (_ & _ & Hfr).
    rewrite run_eq, <- entering_cwd. apply Hfr.
    exact (not_eq_sym (temp_neq_tar env)).
Qed.

(** X7.  In the archive of every successful run the first member is the
    directory [temp_nginx] itself and every member is named [temp_nginx] or
    [temp_nginx/...]: the scratch directory is the single top-level name,
    whatever it held. *)
Theorem X7_members_live_under_the_scratch_name (c : node) :
  succeeded env c ->
  exists ms,
    archive_members (cwd (snd (run env c))) (zst_name env) = Some ms /\
    (exists w rest, ms = (os_path_basename TEMP_DIR, MDir w) :: rest) /\
    forall m, In m ms ->
      fst m = os_path_basename TEMP_DIR \/
      exists r, fst m = (os_path_basename TEMP_DIR ++ "/" ++ r)%string.
Proof.
  intros Hs. exists (tar_add (scratch_tree c) TEMP_DIR).
  split; [|split].
  - unfold archive_members.
    rewrite (succeeded_output env c Hs), zstd_roundtrip, tar_roundtrip.
    reflexivity.
  - unfold scratch_tree.
    destruct (child TEMP_DIR c) as [[d|w es]|]; simpl; eauto.
  - intros m Hm. exact (tar_add_names _ _ _ Hm).
Qed.

(** X8.  When a regular file called [temp_nginx] is in the way,
    [os.makedirs] raises [FileExistsError] in spite of [exist_ok=True]; the
    [finally] suite then runs [rm -rf] on that file, which deletes it when
    the working directory is writable, before the run ends with the
    [NameError] for [tar_file_name]. *)
Theorem X8_file_in_the_way_is_deleted (c : node) (d : list byte) :
  child TEMP_DIR c = Some (File d) ->
  faults env Makedirs = None ->
  raised env c (FileExistsError TEMP_DIR) /\
  failing_step env c = Makedirs /\
  In RmRf (trace (snd (run env c))) /\
  fst (run env c) = inl (NameError "tar_file_name") /\
  (is_writable_dir c = true -> child TEMP_DIR (cwd (snd (run env c))) = None).
Proof.
  intros Hc Hf.
  assert (Hmk : makedirs TEMP_DIR c [TEMP_DIR] = inl (FileExistsError TEMP_DIR)).
  { destruct c as [d0|w es]; [discriminate Hc|].
    cbn [child] in Hc. cbn [makedirs]. rewrite Hc. reflexivity. }
  destruct (try_stops_at_makedirs env c _ Hmk) as (e' & Hbc & He').
  rewrite (He' Hf) in Hbc. clear He' e'.
  assert (Hr : raised env c (FileExistsError TEMP_DIR))
    by (unfold raised; rewrite Hbc; reflexivity).
  assert (Hv : var_tar_file_name (entering_finally env c) = None)
    by (rewrite entering_var, Hbc; reflexivity).
  destruct (finally_unbound env _ Hv) as (Hout & (cl & Ht & _ & Hrm) & _).
  rewrite <- run_eq in Hout, Ht.
  split; [exact Hr|]. split; [|split; [|split]].
  - unfold failing_step. rewrite Hbc. reflexivity.
  - rewrite Ht, Hrm.
    + apply in_or_app. right. right. left. reflexivity.
    + rewrite entering_cwd, Hbc. cbn [snd cwd].
      rewrite exists_at_child, Hc. reflexivity.
  - exact Hout.
  - intros Hw. rewrite run_eq. apply finally_scratch_gone.
    + rewrite entering_cwd, try_keeps_writable. exact Hw.
    + rewrite entering_cwd, Hbc. cbn [snd cwd]. rewrite Hc. reflexivity.
    + left. exact Hv.
Qed.

(** X10.  In a working directory the script may not write to, with no
    [temp_nginx] present, the run changes nothing on disk: it stops at
    [os.makedirs] (with [PermissionError] when no other fault is injected
    there) and ends with the [NameError] for [tar_file_name]. *)
Theorem X10_read_only_directory_is_left_untouched (c : node) :
  is_writable_dir c = false ->
  child TEMP_DIR c = None ->
  cwd (snd (run env c)) = c /\
  failing_step env c = Makedirs /\
  fst (run env c) = inl (NameError "tar_file_name") /\
  (forall es, c = Dir false es -> faults env Makedirs = None ->
              raised env c (PermissionError TEMP_DIR)).
Proof.
  intros Hw Hc.
  assert (Hmk : exists e, makedirs TEMP_DIR c [TEMP_DIR] = inl e /\
                  forall es, c = Dir false es -> e = PermissionError TEMP_DIR).
  { destruct c as [d0|w es].
    - eexists. split; [reflexivity|]. intros es H. discriminate H.
    - cbn [child] in Hc. simpl in Hw. subst w. cbn [makedirs]. rewrite Hc.
      eexists. split; [reflexivity|]. reflexivity. }
  destruct Hmk as (e & Hmk & Hperm).
  destruct (try_stops_at_makedirs env c _ Hmk) as (e' & Hbc & He').
  assert (Hv : var_tar_file_name (entering_finally env c) = None)
    by (rewrite entering_var, Hbc; reflexivity).
  assert (Hcwd : cwd (entering_finally env c) = c)
    by (rewrite entering_cwd, Hbc; reflexivity).
  destruct (finally_unbound env _ Hv) as (Hout & _ & _).
  rewrite <- run_eq in Hout.
  split; [|split; [|split]].
  - rewrite run_eq. finally_steps. rewrite Hv, Hcwd, exists_at_child, Hc.
    reflexivity.
  - unfold failing_step. rewrite Hbc. reflexivity.
  - exact Hout.
  - intros es Hes Hf. unfold raised. rewrite Hbc. cbn [fst].
    rewrite (He' Hf), (Hperm es Hes). reflexivity.
Qed.

(** X11.  A run ends in one of three ways: the process terminates
    normally; or the [try] suite raised before [tar_file_name] was
    assigned and the run ends with the [NameError] for that variable; or
    the run had reached [tarfile.open] and the exception that ends it was
    raised by the last statement, [os.remove]. *)
Theorem X11_three_ways_to_end (c : node) :
  terminates_normally env c \/
  (fst (run env c) = inl (NameError "tar_file_name") /\
   ~ In TarOpen (trace (snd (before_cleanup env c))) /\
   exists e, raised env c e) \/
  (In TarOpen (trace (snd (before_cleanup env c))) /\
   exists e', fst (run env c) = inl e' /\
              last (trace (snd (run env c))) Makedirs = RemoveTar).
Proof.
  destruct (existsb (step_eqb TarOpen) (trace (snd (before_cleanup env c))))
    eqn:Ex.
  - apply existsb_step_In in Ex.
    destruct (run_trace env c) as (cl & Ht & _ & _ & _ & Hl).
    unfold terminates_normally.
    destruct (fst (run env c)) as [e'|[]] eqn:E; [right; right|left; reflexivity].
    split; [exact Ex|]. exists e'. split; [reflexivity|].
    specialize (Hl Ex e' eq_refl). rewrite Ht.
    destruct cl as [|x cl']; [discriminate Hl|].
    rewrite last_app_cons.
    change (last (CleanupStart :: x :: cl') Makedirs)
      with (last (x :: cl') Makedirs).
    rewrite (last_cons_default x cl' Makedirs CleanupStart). exact Hl.
  - right. left.
    pose proof (proj2 (try_var env c) Ex) as Hv.
    rewrite <- entering_var in Hv.
    destruct (finally_unbound env _ Hv) as (Hout & _ & _).
    rewrite <- run_eq in Hout. apply existsb_step_not_In in Ex.
    split; [exact Hout|]. split; [exact Ex|].
    unfold raised. destruct (fst (before_cleanup env c)) as [e|[]] eqn:E.
    + exists e. reflexivity.
    + exfalso. apply Ex. rewrite (succeeded_trace env c E). simpl. tauto.
Qed.

(** X9.  Running the script a second time within the same second, in the
    directory a clean first run left behind: the second run completes as
    well, and the file it leaves under the same name holds an archive with
    the same members as the first one (the output is overwritten, not
    corrupted). *)
Theorem X9_second_run_in_the_same_second (c : node) :
  (forall k, faults env k = None) ->
  is_writable_dir c = true ->
  child TEMP_DIR c = None ->
  is_dir (child (tar_name env) c) = false ->
  is_dir (child (zst_name env) c) = false ->
  succeeded env (cwd (snd (run env c))) /\
  terminates_normally env (cwd (snd (run env c))) /\
  exists ms,
    archive_members (cwd (snd (run env c))) (zst_name env) = Some ms /\
    archive_members (cwd (snd (run env (cwd (snd (run env c))))))
      (zst_name env) = Some ms.
Proof.
  intros Hf Hw Hc Ht Hz.
  assert (Hu : scratch_usable c = true)
    by (unfold scratch_usable; rewrite Hc; reflexivity).
  destruct (clean_run c Hf Hw Hu Ht Hz) as (Hs & Hn & Hgone & Hout & Hw').
  assert (Hc' : child TEMP_DIR (cwd (snd (run env c))) = None).
  { rewrite run_eq. apply finally_scratch_gone.
    - rewrite entering_cwd, try_keeps_writable. exact Hw.
    - rewrite entering_cwd. apply try_scratch_removable.
      rewrite Hc. exact I.
    - apply entering_var_cases. }
  assert (Hu' : scratch_usable (cwd (snd (run env c))) = true)
    by (unfold scratch_usable; rewrite Hc'; reflexivity).
  assert (Ht' : is_dir (child (tar_name env) (cwd (snd (run env c)))) = false)
    by (rewrite Hgone; reflexivity).
  assert (Hz' : is_dir (child (zst_name env) (cwd (snd (run env c)))) = false)
    by (rewrite Hout; reflexivity).
  destruct (clean_run _ Hf Hw' Hu' Ht' Hz') as (Hs2 & Hn2 & _ & Hout2 & _).
  split; [exact Hs2|]. split; [exact Hn2|].
  exists (tar_add (scratch_tree c) TEMP_DIR). split.
  - unfold archive_members. rewrite Hout, zstd_roundtrip, tar_roundtrip.
    reflexivity.
  - unfold archive_members. rewrite Hout2, zstd_roundtrip, tar_roundtrip.
    unfold scratch_tree. rewrite Hc, Hc'. reflexivity.
Qed.

End Extras.

(** X6.  Two runs use the same tar file name, or the same output file
    name, exactly when their clocks gave the same reading (year, month, day,
    hour, minute and second of the local time of line 11): equal names give
    equal readings, and equal readings give equal names.  The reading is
    local wall-clock time without zone or offset, so two runs at different
    instants that read the same local time (in the hour repeated when
    daylight saving time ends, or after the clock was set back) share their
    names. *)
Theorem X6_equal_names_equal_clock_readings (env1 env2 : environment) :
  valid_datetime (now env1) = true ->
  valid_datetime (now env2) = true ->
  (tar_name env1 = tar_name env2 \/ zst_name env1 = zst_name env2 ->
   now env1 = now env2) /\
  (now env1 = now env2 ->
   tar_name env1 = tar_name env2 /\ zst_name env1 = zst_name env2).
Proof.
  intros H1 H2. split.
  - intros Heq.
    assert (Hv : strftime_YmdHMS (now env1) = strftime_YmdHMS (now env2)).
    { destruct Heq as [Heq|Heq].
      + unfold tar_name, PACKAGE_VERSION, PACKAGE_NAME in Heq.
        simpl in Heq. inversion Heq as [Hrest].
        exact (string_app_inv_tail _ _ _ Hrest).
      + unfold zst_name, tar_name, PACKAGE_VERSION, PACKAGE_NAME in Heq.
        simpl in Heq. inversion Heq as [Hrest].
        apply string_app_inv_tail in Hrest.
        exact (string_app_inv_tail _ _ _ Hrest). }
    rewrite <- (parse_strftime (now env1) H1),
      <- (parse_strftime (now env2) H2).
    rewrite Hv. reflexivity.
  - intros Hn. unfold zst_name, tar_name, PACKAGE_VERSION.
    rewrite Hn. split; reflexivity.
Qed.

(** ** Concrete runs for the further properties *)

Lemma X1_witness_empty_cwd :
  (forall k, faults env0 k = None) /\
  is_writable_dir empty_cwd = true /\
  scratch_usable empty_cwd = true /\
  is_dir (child (tar_name env0) empty_cwd) = false /\
  is_dir (child (zst_name env0) empty_cwd) = false /\
  succeeded (L := stored_libs) env0 empty_cwd /\
  terminates_normally (L := stored_libs) env0 empty_cwd /\
  child (tar_name env0) (cwd (snd (run (L := stored_libs) env0 empty_cwd)))
    = None.
Proof.
  assert (H1 : forall k, faults env0 k = None) by (intros k; reflexivity).
  assert (H2 : is_writable_dir empty_cwd = true) by reflexivity.
  assert (H3 : scratch_usable empty_cwd = true) by reflexivity.
  assert (H4 : is_dir (child (tar_name env0) empty_cwd) = false)
    by reflexivity.
  assert (H5 : is_dir (child (zst_name env0) empty_cwd) = false)
    by reflexivity.
  destruct (X1_clean_start_completes (L := stored_libs) env0 empty_cwd
              H1 H2 H3 H4 H5) as (Hs & Hn & _ & Hgone & _).
  repeat (split; [assumption|]). exact Hgone.
Defined.

Lemma X2_witness_notes_kept :
  "notes.txt"%string <> TEMP_DIR /\
  "notes.txt"%string <> tar_name env0 /\
  "notes.txt"%string <> zst_name env0 /\
  child "notes.txt" (cwd (snd (run (L := stored_libs) env0 cwd_with_notes)))
    = Some (File [x68; x69]).
Proof.
  assert (H1 : "notes.txt"%string <> TEMP_DIR)
    by (vm_compute; discriminate).
  assert (H2 : "notes.txt"%string <> tar_name env0)
    by (vm_compute; discriminate).
  assert (H3 : "notes.txt"%string <> zst_name env0)
    by (vm_compute; discriminate).
  split; [exact H1|]. split; [exact H2|]. split; [exact H3|].
  exact (proj1 (X2_other_entries_untouched (L := stored_libs) env0
                  cwd_with_notes "notes.txt" H1 H2 H3)).
Defined.

Lemma X3_witness_disk_full :
  raised (L := stored_libs) env_disk_full empty_cwd
    (Exn "OSError" "[Errno 28] No space left on device") /\
  forall x, ~ In ("Checksum: " ++ x)%string
                 (stdout (snd (run (L := stored_libs) env_disk_full empty_cwd))).
Proof.
  assert (H : raised (L := stored_libs) env_disk_full empty_cwd
                (Exn "OSError" "[Errno 28] No space left on device"))
    by (vm_compute; reflexivity).
  split; [exact H|].
  destruct (X3_failed_run_prints_no_results (L := stored_libs)
              env_disk_full empty_cwd _ H) as (_ & _ & Hno & _).
  exact Hno.
Defined.

Lemma X4_witness_leftover_scratch :
  is_writable_dir cwd_with_old_file = true /\
  removable_opt (child TEMP_DIR cwd_with_old_file) /\
  child TEMP_DIR (cwd (snd (run (L := stored_libs) env0 cwd_with_old_file)))
    = None.
Proof.
  assert (H1 : is_writable_dir cwd_with_old_file = true) by reflexivity.
  assert (H2 : removable_opt (child TEMP_DIR cwd_with_old_file))
    by reflexivity.
  split; [exact H1|]. split; [exact H2|].
  exact (proj1 (X4_scratch_never_left_behind (L := stored_libs) env0
                  cwd_with_old_file H1 H2)).
Defined.

Lemma X6_witness_same_reading :
  valid_datetime (now env0) = true /\
  valid_datetime (now env_disk_full) = true /\
  tar_name env0 = tar_name env_disk_full /\
  now env0 = now env_disk_full.
Proof.
  assert (H1 : valid_datetime (now env0) = true) by (vm_compute; reflexivity).
  assert (H2 : valid_datetime (now env_disk_full) = true)
    by (vm_compute; reflexivity).
  assert (H3 : tar_name env0 = tar_name env_disk_full) by reflexivity.
  split; [exact H1|]. split; [exact H2|]. split; [exact H3|].
  exact (proj1 (X6_equal_names_equal_clock_readings env0 env_disk_full H1 H2)
           (or_introl H3)).
Defined.

(** One second later the names differ. *)
Example next_second_other_names :
  tar_name env1 <> tar_name env0 /\ zst_name env1 <> zst_name env0.
Proof. split; vm_compute; discriminate. Qed.

(** A year of three digits gives a version string of thirteen. *)
Example three_digit_year_gives_thirteen_digits :
  valid_datetime clock_year_999 = true /\
  strftime_YmdHMS clock_year_999 = "9991103105907".
Proof. split; vm_compute; reflexivity. Qed.

Lemma X7_witness_leftover_file :
  succeeded (L := stored_libs) env0 cwd_with_old_file /\
  exists ms,
    archive_members (L := stored_libs)
      (cwd (snd (run (L := stored_libs) env0 cwd_with_old_file)))
      (zst_name env0) = Some ms /\
    forall m, In m ms ->
      fst m = "temp_nginx"%string \/
      exists r, fst m = ("temp_nginx" ++ "/" ++ r)%string.
Proof.
  assert (H : succeeded (L := stored_libs) env0 cwd_with_old_file)
    by (vm_compute; reflexivity).
  split; [exact H|].
  destruct (X7_members_live_under_the_scratch_name (L := stored_libs) env0
              cwd_with_old_file H) as (ms & Hms & _ & Hall).
  exists ms. split; [exact Hms | exact Hall].
Defined.

Lemma X8_witness_file_at_temp :
  child TEMP_DIR cwd_with_file_at_temp = Some (File [x21]) /\
  faults env0 Makedirs = None /\
  raised (L := stored_libs) env0 cwd_with_file_at_temp
    (FileExistsError TEMP_DIR) /\
  child TEMP_DIR
    (cwd (snd (run (L := stored_libs) env0 cwd_with_file_at_temp))) = None.
Proof.
  assert (H1 : child TEMP_DIR cwd_with_file_at_temp = Some (File [x21]))
    by reflexivity.
  assert (H2 : faults env0 Makedirs = None) by reflexivity.
  split; [exact H1|]. split; [exact H2|].
  destruct (X8_file_in_the_way_is_deleted (L := stored_libs) env0
              cwd_with_file_at_temp [x21] H1 H2) as (Hr & _ & _ & _ & Hgone).
  split; [exact Hr | exact (Hgone eq_refl)].
Defined.

Lemma X9_witness_empty_cwd :
  (forall k, faults env0 k = None) /\
  is_writable_dir empty_cwd = true /\
  child TEMP_DIR empty_cwd = None /\
  is_dir (child (tar_name env0) empty_cwd) = false /\
  is_dir (child (zst_name env0) empty_cwd) = false /\
  succeeded (L := stored_libs) env0
    (cwd (snd (run (L := stored_libs) env0 empty_cwd))).
Proof.
  assert (H1 : forall k, faults env0 k = None) by (intros k; reflexivity).
  assert (H2 : is_writable_dir empty_cwd = true) by reflexivity.
  assert (H3 : child TEMP_DIR empty_cwd = None) by reflexivity.
  assert (H4 : is_dir (child (tar_name env0) empty_cwd) = false)
    by reflexivity.
  assert (H5 : is_dir (child (zst_name env0) empty_cwd) = false)
    by reflexivity.
  repeat (split; [assumption|]).
  exact (proj1 (X9_second_run_in_the_same_second (L := stored_libs) env0
                  empty_cwd H1 H2 H3 H4 H5)).
Defined.

Lemma X10_witness_read_only_with_notes :
  is_writable_dir read_only_cwd_with_notes = false /\
  child TEMP_DIR read_only_cwd_with_notes = None /\
  cwd (snd (run (L := stored_libs) env0 read_only_cwd_with_notes))
    = read_only_cwd_with_notes.
Proof.
  assert (H1 : is_writable_dir read_only_cwd_with_notes = false)
    by reflexivity.
  assert (H2 : child TEMP_DIR read_only_cwd_with_notes = None) by reflexivity.
  split; [exact H1|]. split; [exact H2|].
  exact (proj1 (X10_read_only_directory_is_left_untouched (L := stored_libs)
                  env0 read_only_cwd_with_notes H1 H2)).
Defined.
